(** * The write-ahead-log writer of leveldb ([db/log_writer.cc])

    A shallow embedding of [log::Writer]: the block cursor, the
    fragmentation loop of [AddRecord] and the chunk emission of
    [EmitPhysicalRecord], over an abstract append-only sink.  Integers are
    [Z] with the C++ conversions written out, byte strings are lists of
    [byte], the sink is an interface (a type class) and [assert] is an
    outcome of its own.

    The file has the model first ([log_format], [coding], [crc32c], the
    sink, the writer monad, [log]), then the notions in which the
    properties are stated, then the lemmas and the theorems C1 to C10,
    on every sink where the sink does not matter and on a sink that
    records its calls and fails on demand where it does, and last the
    theorems at concrete inputs. *)

From Stdlib Require Import String ZArith List Lia Bool.
From coqutil Require Import Byte.
Import ListNotations.
Local Open Scope Z_scope.

(** ** Machine integers *)

(** Conversion to [size_t] (64 bits, unsigned). *)
Definition to_size_t (z : Z) : Z := z mod 2 ^ 64.

(** Conversion to [uint32_t]. *)
Definition to_uint32 (z : Z) : Z := z mod 2 ^ 32.

(** Conversion to [int] (32 bits, two's complement). *)
Definition to_int (z : Z) : Z := (z + 2 ^ 31) mod 2 ^ 32 - 2 ^ 31.

(** [static_cast<char>(z)]: the low eight bits. *)
Definition to_char (z : Z) : byte := byte.of_Z z.

(** ** Record format ([db/log_format.h]) *)

Module log_format.

(** Modelled from the spec: the record-type enumeration of
    [db/log_format.h], which is not among the sources.  The spec fixes
    five tags, Zero=0, Full=1, First=2, Middle=3, Last=4. *)
Inductive RecordType : Set :=
| kZeroType
| kFullType
| kFirstType
| kMiddleType
| kLastType.

(** The integer value of an enumerator, as [static_cast<char>(t)] and
    the index [type_crc_[t]] see it. *)
Definition tag (t : RecordType) : Z :=
  match t with
  | kZeroType => 0
  | kFullType => 1
  | kFirstType => 2
  | kMiddleType => 3
  | kLastType => 4
  end.

(** Modelled from the spec: the bound [kMaxRecordType] of the
    enumeration.  The spec gives the enumeration exactly five tags and
    has the checksum table range over the tags [[0, MaxType]], so the
    bound is the largest tag, the one of [kLastType]. *)
Definition kMaxRecordType : RecordType := kLastType.

(** Modelled from the spec: block size 32768 bytes. *)
Definition kBlockSize : Z := 32768.

(** Modelled from the spec: header size 7 bytes, checksum (4 bytes),
    length (2 bytes), type (1 byte); [AddRecord] asserts statically that
    it is 7. *)
Definition kHeaderSize : Z := 4 + 2 + 1.

End log_format.
Export log_format.

(** ** Fixed-width coding ([util/coding.h]) *)

Module coding.

(** Modelled from the spec: [EncodeFixed32] of [util/coding.h], which is
    not among the sources; the spec has the four bytes little-endian. *)
Definition EncodeFixed32 (value : Z) : list byte :=
  [ to_char value;
    to_char (Z.shiftr value 8);
    to_char (Z.shiftr value 16);
    to_char (Z.shiftr value 24) ].

(** The reader's inverse, [DecodeFixed32], on the first four bytes. *)
Definition DecodeFixed32 (buf : list byte) : Z :=
  let b i := byte.unsigned (nth i buf Byte.x00) in
  Z.lor (b 0%nat)
    (Z.lor (Z.shiftl (b 1%nat) 8)
       (Z.lor (Z.shiftl (b 2%nat) 16) (Z.shiftl (b 3%nat) 24))).

End coding.

(** ** Checksum masking ([util/crc32c.h]) *)

Module crc32c.

Section Masking.

(** Modelled from the spec: [Mask] and [Unmask] of [util/crc32c.h],
    which is not among the sources.  The spec has [Mask] a bit
    rotation followed by the addition of a constant, without their
    values: the number of bits [kMaskRotate] the word is rotated to
    the right and the constant [kMaskDelta] are parameters. *)
Variable kMaskRotate : Z.
Variable kMaskDelta : Z.

(** Rotation of a 32-bit word to the right. *)
Definition rotate_right (n crc : Z) : Z :=
  Z.lor (Z.shiftr crc n) (to_uint32 (Z.shiftl crc (32 - n))).

Definition Mask (crc : Z) : Z :=
  to_uint32 (rotate_right kMaskRotate crc + kMaskDelta).

Definition Unmask (masked_crc : Z) : Z :=
  let rot := to_uint32 (masked_crc - kMaskDelta) in
  rotate_right (32 - kMaskRotate) rot.

End Masking.

(** A bitwise CRC-32C (Castagnoli, reflected polynomial 0x82F63B78), an
    instance of the checksum primitive on which the model can be run. *)
Definition step_bit (crc : Z) : Z :=
  if Z.odd crc then Z.lxor (Z.shiftr crc 1) 0x82F63B78 else Z.shiftr crc 1.

Definition step_byte (crc : Z) (b : byte) : Z :=
  let c := Z.lxor crc (byte.unsigned b) in
  step_bit (step_bit (step_bit (step_bit
    (step_bit (step_bit (step_bit (step_bit c))))))).

Definition Extend (init_crc : Z) (data : list byte) : Z :=
  to_uint32
    (Z.lxor (fold_left step_byte data (Z.lxor (to_uint32 init_crc) 0xffffffff))
       0xffffffff).

Definition Value (data : list byte) : Z := Extend 0 data.

End crc32c.

(** ** Status and the sink ([leveldb/status.h], [leveldb/env.h]) *)

(** Modelled from the spec: [Status], of which the writer only tests
    [ok()] and which it hands back unchanged; the sink's failures are
    I/O errors. *)
Inductive Status : Type :=
| OK
| IOError (msg : string).

Definition ok (s : Status) : bool :=
  match s with
  | OK => true
  | IOError _ => false
  end.

(** Modelled from the spec: the interface [WritableFile] of the sink, of
    which the writer calls [Append] and [Flush]; each returns a [Status]
    and leaves the sink in a new state. *)
Class WritableFile (F : Type) : Type := {
  Append : list byte -> F -> Status * F;
  Flush : F -> Status * F
}.

(** A sink that can be observed and made to fail, in the manner of the
    string destination of the log tests: it keeps the bytes it accepted,
    the calls it received, and a script with the status of each coming
    call (once the script is exhausted every call succeeds).  A failed
    [Append] adds no byte to [contents]. *)
Inductive SinkCall : Type :=
| CallAppend (data : list byte)
| CallFlush.

Record ScriptedFile : Type := {
  contents : list byte;
  calls : list SinkCall;
  script : list Status
}.

Definition ScriptedFile_Append (data : list byte) (f : ScriptedFile)
  : Status * ScriptedFile :=
  let s := hd OK (script f) in
  (s, {| contents := if ok s then contents f ++ data else contents f;
         calls := calls f ++ [CallAppend data];
         script := tl (script f) |}).

Definition ScriptedFile_Flush (f : ScriptedFile) : Status * ScriptedFile :=
  (hd OK (script f),
   {| contents := contents f;
      calls := calls f ++ [CallFlush];
      script := tl (script f) |}).

#[export] Instance ScriptedFile_WritableFile : WritableFile ScriptedFile := {
  Append := ScriptedFile_Append;
  Flush := ScriptedFile_Flush
}.

(** ** Outcomes and the writer monad *)

(** A call returns, or stops at a failed [assert]; [OutOfFuel] is the
    result of the bounded loop below when its bound is too small. *)
Inductive Outcome (A : Type) : Type :=
| Returns (a : A)
| AssertionFailure
| OutOfFuel.
Arguments Returns {A} a.
Arguments AssertionFailure {A}.
Arguments OutOfFuel {A}.

(** Computations over a state [St]: the writer object. *)
Definition M (St A : Type) : Type := St -> Outcome (A * St).

Definition ret {St A : Type} (a : A) : M St A := fun st => Returns (a, st).

Definition bind {St A B : Type} (m : M St A) (k : A -> M St B) : M St B :=
  fun st =>
    match m st with
    | Returns (a, st') => k a st'
    | AssertionFailure => AssertionFailure
    | OutOfFuel => OutOfFuel
    end.

Definition assert {St : Type} (b : bool) : M St unit :=
  fun st => if b then Returns (tt, st) else AssertionFailure.

Declare Scope writer_scope.
Delimit Scope writer_scope with writer.
Notation "x <- m ;; k" := (bind m (fun x => k))
  (at level 61, m at next level, right associativity) : writer_scope.
Notation "m ;; k" := (bind m (fun _ => k))
  (at level 61, right associativity) : writer_scope.

(** ** The writer ([db/log_writer.h], [db/log_writer.cc]) *)

Module log.

(** The fields of [class Writer]: the sink (in the source a pointer to
    an object the writer does not own; here its state is threaded
    through the writer), the cursor and the checksum table. *)
Record Writer (F : Type) : Type := {
  dest_ : F;
  block_offset_ : Z;
  type_crc_ : list Z
}.
Arguments dest_ {F} w.
Arguments block_offset_ {F} w.
Arguments type_crc_ {F} w.

Definition get_block_offset {F : Type} : M (Writer F) Z :=
  fun w => Returns (block_offset_ w, w).

Definition set_block_offset {F : Type} (z : Z) : M (Writer F) unit :=
  fun w => Returns (tt, {| dest_ := dest_ w;
                          block_offset_ := z;
                          type_crc_ := type_crc_ w |}).

Definition with_dest {F : Type} (op : F -> Status * F) : M (Writer F) Status :=
  fun w => let (s, d) := op (dest_ w) in
           Returns (s, {| dest_ := d;
                          block_offset_ := block_offset_ w;
                          type_crc_ := type_crc_ w |}).

(** [dest_->Append(data)] and [dest_->Flush()]. *)
Definition dest_Append {F : Type} `{WritableFile F} (data : list byte)
  : M (Writer F) Status := with_dest (Append data).

Definition dest_Flush {F : Type} `{WritableFile F} : M (Writer F) Status :=
  with_dest Flush.

Section WithChecksum.

(** The checksum primitive of [util/crc32c.h], a pure function that
    is not among the sources: [crc32c::Value] and [crc32c::Extend]
    are parameters, as are the two constants of the masking. *)
Variable Value : list byte -> Z.
Variable Extend : Z -> list byte -> Z.
Variable kMaskRotate : Z.
Variable kMaskDelta : Z.

Local Open Scope writer_scope.

(** [InitTypeCrc]: the checksum of the one byte [i], for every [i]
    from 0 to [kMaxRecordType]. *)
Definition InitTypeCrc : list Z :=
  map (fun i : nat => Value [to_char (Z.of_nat i)])
      (seq 0 (S (Z.to_nat (tag kMaxRecordType)))).

(** [Writer::Writer(WritableFile* dest)]. *)
Definition Writer_new {F : Type} (dest : F) : Writer F :=
  {| dest_ := dest; block_offset_ := 0; type_crc_ := InitTypeCrc |}.

(** [Writer::Writer(WritableFile* dest, uint64_t dest_length)], with
    [block_offset_(dest_length % kBlockSize)]. *)
Definition Writer_at {F : Type} (dest : F) (dest_length : Z) : Writer F :=
  {| dest_ := dest;
     block_offset_ := to_int ((dest_length mod 2 ^ 64) mod kBlockSize);
     type_crc_ := InitTypeCrc |}.

(** The seven bytes [buf] that [EmitPhysicalRecord] formats: the
    masked checksum in bytes 0 to 3, the length in bytes 4 and 5, the
    type in byte 6. *)
Definition FormatHeader (type_crc : list Z) (t : RecordType)
    (ptr : list byte) (length : Z) : list byte :=
  let crc := Extend (nth (Z.to_nat (tag t)) type_crc 0)
                    (firstn (Z.to_nat length) ptr) in
  let crc := crc32c.Mask kMaskRotate kMaskDelta crc in
  coding.EncodeFixed32 crc
    ++ [ to_char (Z.land length 0xff);
         to_char (Z.shiftr length 8);
         to_char (tag t) ].

(** [Writer::EmitPhysicalRecord(t, ptr, length)]; [ptr] is the part of
    the slice from the pointer on, of which the first [length] bytes
    are the payload.  [block_offset_ + kHeaderSize] is a sum of [int]s,
    to which the [size_t] [length] is added. *)
Definition EmitPhysicalRecord {F : Type} `{WritableFile F}
    (t : RecordType) (ptr : list byte) (length : Z) : M (Writer F) Status :=
  (* assert(length <= 0xffff); *)
  assert (length <=? 0xffff) ;;
  (* assert(block_offset_ + kHeaderSize + length <= kBlockSize); *)
  bo <- get_block_offset ;;
  assert (to_size_t (to_int (bo + kHeaderSize) + length) <=? kBlockSize) ;;
  (* char buf[kHeaderSize]; ... EncodeFixed32(buf, crc); *)
  buf <- (fun w => Returns (FormatHeader (type_crc_ w) t ptr length, w)) ;;
  (* Status s = dest_->Append(Slice(buf, kHeaderSize)); *)
  s <- dest_Append buf ;;
  (* if (s.ok()) { s = dest_->Append(Slice(ptr, length));
                   if (s.ok()) { s = dest_->Flush(); } } *)
  s <- (if ok s then
          s <- dest_Append (firstn (Z.to_nat length) ptr) ;;
          if ok s then dest_Flush else ret s
        else ret s) ;;
  (* block_offset_ += kHeaderSize + length; *)
  set_block_offset (to_int (to_size_t (bo + to_size_t (kHeaderSize + length)))) ;;
  (* return s; *)
  ret s.

(** One pass through the body of the [do ... while] of [AddRecord],
    from the values of [ptr], [left] and [begin] to the status of the
    chunk and the new [ptr] and [left].  [left] is a [size_t] from which
    no more than it holds is subtracted. *)
Definition AddRecord_body {F : Type} `{WritableFile F}
    (ptr : list byte) (left : Z) (begin : bool)
  : M (Writer F) (Status * list byte * Z) :=
  (* const int leftover = kBlockSize - block_offset_;
     assert(leftover >= 0); *)
  bo <- get_block_offset ;;
  let leftover := to_int (kBlockSize - bo) in
  assert (0 <=? leftover) ;;
  (* if (leftover < kHeaderSize) {
       if (leftover > 0) { dest_->Append(Slice(six zero bytes, leftover)); }
       block_offset_ = 0; } *)
  (if leftover <? kHeaderSize then
     (if 0 <? leftover then
        dest_Append (firstn (Z.to_nat leftover) (repeat Byte.x00 6)) ;; ret tt
      else ret tt) ;;
     set_block_offset 0
   else ret tt) ;;
  (* assert(kBlockSize - block_offset_ - kHeaderSize >= 0); *)
  bo <- get_block_offset ;;
  assert (0 <=? to_int (kBlockSize - bo - kHeaderSize)) ;;
  (* const size_t avail = kBlockSize - block_offset_ - kHeaderSize;
     const size_t fragment_length = (left < avail) ? left : avail; *)
  let avail := to_size_t (to_int (kBlockSize - bo - kHeaderSize)) in
  let fragment_length := if left <? avail then left else avail in
  (* const bool end = (left == fragment_length); *)
  let end_ := left =? fragment_length in
  let type :=
    if begin && end_ then kFullType
    else if begin then kFirstType
    else if end_ then kLastType
    else kMiddleType in
  (* s = EmitPhysicalRecord(type, ptr, fragment_length);
     ptr += fragment_length; left -= fragment_length; *)
  s <- EmitPhysicalRecord type ptr fragment_length ;;
  ret (s, skipn (Z.to_nat fragment_length) ptr, left - fragment_length).

(** The loop [do body while (s.ok() && left > 0)], at most [fuel]
    passes; [begin] is false from the second pass on. *)
Fixpoint AddRecord_loop {F : Type} `{WritableFile F} (fuel : nat)
    (ptr : list byte) (left : Z) (begin : bool) : M (Writer F) Status :=
  match fuel with
  | O => fun _ => OutOfFuel
  | S fuel' =>
      r <- AddRecord_body ptr left begin ;;
      let '(s, ptr', left') := r in
      if ok s && (0 <? left') then AddRecord_loop fuel' ptr' left' false
      else ret s
  end.

(** [Writer::AddRecord(slice)]: the loop from [ptr = slice.data()],
    [left = slice.size()] and [begin = true].  A pass that emits no byte
    is followed by one that emits at least one, so two passes more than
    the slice has bytes are enough ([AddRecord_returns] below). *)
Definition AddRecord {F : Type} `{WritableFile F} (slice : list byte)
  : M (Writer F) Status :=
  AddRecord_loop (2 + List.length slice) slice
    (Z.of_nat (List.length slice)) true.

End WithChecksum.

End log.
Import log.

(** ** What one chunk and one pass do, in closed form *)

(** The sink operations of one chunk: the header, then the payload if the
    header went through, then a flush if both did. *)
Definition emit_sink {F : Type} `{WritableFile F} (buf payload : list byte)
    (d : F) : Status * F :=
  let (s1, d1) := Append buf d in
  if ok s1 then
    let (s2, d2) := Append payload d1 in
    if ok s2 then Flush d2 else (s2, d2)
  else (s1, d1).

(** The cursor once the pass has switched to a new block, or not. *)
Definition switch_offset (bo : Z) : Z :=
  if kBlockSize - bo <? kHeaderSize then 0 else bo.

(** The trailer that fills a block of which 1 to 6 bytes are left. *)
Definition trailer (bo : Z) : list byte :=
  repeat Byte.x00 (Z.to_nat (kBlockSize - bo)).

(** The sink once the pass has switched to a new block, or not. *)
Definition switch_dest {F : Type} `{WritableFile F} (bo : Z) (d : F) : F :=
  if (0 <? kBlockSize - bo) && (kBlockSize - bo <? kHeaderSize)
  then snd (Append (trailer bo) d)
  else d.

(** The payload length of the chunk of a pass. *)
Definition fragment_length (bo left : Z) : Z :=
  Z.min left (kBlockSize - switch_offset bo - kHeaderSize).

(** The type of the chunk of a pass. *)
Definition fragment_type (begin end_ : bool) : RecordType :=
  match begin, end_ with
  | true, true => kFullType
  | true, false => kFirstType
  | false, true => kLastType
  | false, false => kMiddleType
  end.

(** The calls a sink receives for a chunk that goes through. *)
Definition record_calls (buf payload : list byte) : list SinkCall :=
  [CallAppend buf; CallAppend payload; CallFlush].

(** The types of the [n] chunks of a record, in the words of the spec:
    [Full] for one chunk, [First], [Middle] n-2 times, [Last] for more. *)
Definition chunk_types (n : nat) : list RecordType :=
  match n with
  | O => []
  | S O => [kFullType]
  | S (S k) => kFirstType :: repeat kMiddleType k ++ [kLastType]
  end.

(** The cursor of a writer between two calls. *)
Definition cursor_ok {F : Type} (w : Writer F) : Prop :=
  0 <= block_offset_ w <= kBlockSize.

(** The writer once it has padded the block: the trailer has been
    appended, whatever became of it, and the cursor is at the start of the
    next block. *)
Definition padded {F : Type} `{WritableFile F} (w : Writer F) : Writer F :=
  {| dest_ := snd (Append (trailer (block_offset_ w)) (dest_ w));
     block_offset_ := 0;
     type_crc_ := type_crc_ w |}.

(** The writer once it has left a block of which no byte remains: the
    cursor is at the start of the next block and the sink is untouched. *)
Definition at_next_block {F : Type} (w : Writer F) : Writer F :=
  {| dest_ := dest_ w; block_offset_ := 0; type_crc_ := type_crc_ w |}.

(** The call that pads the block, when the pass makes it. *)
Definition padding_calls (bo : Z) : list SinkCall :=
  if (0 <? kBlockSize - bo) && (kBlockSize - bo <? kHeaderSize)
  then [CallAppend (trailer bo)]
  else [].

(** The number of sink operations of one chunk under a script: the first
    that fails is the last. *)
Definition ops_done (sc : list Status) : nat :=
  if ok (nth 0 sc OK) then if ok (nth 1 sc OK) then 3 else 2 else 1.

(** The bytes of a chunk that the sink accepted when the chunk stopped
    after [k] operations. *)
Definition accepted (k : nat) (buf payload : list byte) : list byte :=
  match k with
  | O | S O => []
  | S (S O) => buf
  | _ => buf ++ payload
  end.

(** The types of the [m] chunks of a record that are not its last. *)
Definition nonfinal_types (begin : bool) (m : nat) : list RecordType :=
  match m with
  | O => []
  | S j => fragment_type begin false :: repeat kMiddleType j
  end.

Definition is_nil {A : Type} (l : list A) : bool :=
  match l with
  | [] => true
  | _ :: _ => false
  end.

Module chunk.

Section Chunks.

Variable Extend : Z -> list byte -> Z.
Variable kMaskRotate : Z.
Variable kMaskDelta : Z.

(** The header, the sink calls and the bytes of the chunk of type [fst c]
    with payload [snd c]. *)
Definition header (type_crc : list Z) (c : RecordType * list byte)
  : list byte :=
  FormatHeader Extend kMaskRotate kMaskDelta type_crc (fst c) (snd c)
    (Z.of_nat (List.length (snd c))).

Definition calls (type_crc : list Z) (c : RecordType * list byte)
  : list SinkCall :=
  record_calls (header type_crc c) (snd c).

Definition bytes (type_crc : list Z) (c : RecordType * list byte)
  : list byte :=
  header type_crc c ++ snd c.

End Chunks.

End chunk.

(** The fields of a header as the reader takes them from its seven
    bytes: the length from bytes 4 and 5, little-endian, the type from
    byte 6, and the checksum from bytes 0 to 3, unmasked. *)
Module header.

Definition byte_at (buf : list byte) (i : nat) : Z :=
  byte.unsigned (nth i buf Byte.x00).

Definition length_of (buf : list byte) : Z :=
  Z.lor (byte_at buf 4) (Z.shiftl (byte_at buf 5) 8).

Definition type_of (buf : list byte) : Z := byte_at buf 6.

Definition crc_of (kMaskRotate kMaskDelta : Z) (buf : list byte) : Z :=
  crc32c.Unmask kMaskRotate kMaskDelta (coding.DecodeFixed32 buf).

End header.

(** The states of a writer between two calls: those its constructors
    build and those in which a call of [AddRecord] that returns, with
    success or with an error, leaves it. *)
Section BetweenCalls.

Variable Value : list byte -> Z.
Variable Extend : Z -> list byte -> Z.
Variable kMaskRotate : Z.
Variable kMaskDelta : Z.
Context {F : Type} `{WritableFile F}.

Inductive between_calls : Writer F -> Prop :=
| after_new (dest : F) :
    between_calls (Writer_new Value dest)
| after_at (dest : F) (dest_length : Z) :
    between_calls (Writer_at Value dest dest_length)
| after_AddRecord (w w' : Writer F) (slice : list byte) (s : Status) :
    between_calls w ->
    AddRecord Extend kMaskRotate kMaskDelta slice w = Returns (s, w') ->
    between_calls w'.

End BetweenCalls.

(** ** The layout of the stream *)

(** The zero bytes of the padding of a pass that starts at cursor [bo]. *)
Definition padding_bytes (bo : Z) : list byte :=
  if (0 <? kBlockSize - bo) && (kBlockSize - bo <? kHeaderSize)
  then trailer bo
  else [].

(** The cursor agrees with the sink: the bytes the sink holds end, in
    their block, where [block_offset_] says (a cursor at the end of a
    block and one at the start of the next agree with the same sinks). *)
Definition aligned (w : Writer ScriptedFile) : Prop :=
  Z.of_nat (List.length (contents (dest_ w))) mod kBlockSize =
  block_offset_ w mod kBlockSize.

(** Chunks with the payloads [payloads], laid one behind the other from
    position [pos] of the stream, lie each within one block. *)
Fixpoint within_blocks (pos : Z) (payloads : list (list byte)) : Prop :=
  match payloads with
  | [] => True
  | p :: rest =>
      pos mod kBlockSize + kHeaderSize + Z.of_nat (List.length p) <= kBlockSize /\
      within_blocks (pos + kHeaderSize + Z.of_nat (List.length p)) rest
  end.

(** The number of chunks of a record of [left] bytes written from cursor
    [bo]: one when it fits the block behind the header, else one for the
    rest of the block and one for each block the other bytes take up. *)
Definition chunk_count (bo left : Z) : Z :=
  let avail := kBlockSize - switch_offset bo - kHeaderSize in
  if left <=? avail then 1
  else 1 + (left - avail + (kBlockSize - kHeaderSize - 1)) / (kBlockSize - kHeaderSize).

(** The cursor behind that record. *)
Definition cursor_after (bo left : Z) : Z :=
  let avail := kBlockSize - switch_offset bo - kHeaderSize in
  if left <=? avail then switch_offset bo + kHeaderSize + left
  else kHeaderSize + ((left - avail - 1) mod (kBlockSize - kHeaderSize) + 1).

(** ** Inputs on which the model is run *)

Module example.

(** The constants of the masking in leveldb: a rotation by 15 bits and
    the addition of 0xa282ead8. *)
Definition kMaskRotate : Z := 15.
Definition kMaskDelta : Z := 0xa282ead8.

(** An empty sink with the script [sc]. *)
Definition file (sc : list Status) : ScriptedFile :=
  {| contents := []; calls := []; script := sc |}.

(** A payload of [n] bytes. *)
Definition payload (n : Z) : list byte := repeat Byte.x41 (Z.to_nat n).

(** A writer on the sink [file sc] of which [bo] bytes are taken to be
    written. *)
Definition writer (bo : Z) (sc : list Status) : Writer ScriptedFile :=
  Writer_at crc32c.Value (file sc) bo.

(** A writer whose sink fails, with the error "disk full", at the call
    after [n] calls that succeed, and at no other. *)
Definition failing_writer (bo : Z) (n : nat) : Writer ScriptedFile :=
  writer bo (repeat OK n ++ [IOError "disk full"]).

(** A writer constructed on a sink that holds [n] bytes, with that
    length. *)
Definition resumed (n : Z) (sc : list Status) : Writer ScriptedFile :=
  Writer_at crc32c.Value
    {| contents := payload n; calls := []; script := sc |} n.

Definition fresh_writer : Writer ScriptedFile :=
  Writer_new crc32c.Value (file []).

(** The writer a call leaves. *)
Definition writer_of {A : Type} (o : Outcome (A * Writer ScriptedFile))
  : Writer ScriptedFile :=
  match o with
  | Returns (_, w) => w
  | _ => fresh_writer
  end.

End example.


(** ** Conversions that do nothing *)

Lemma to_int_small (z : Z) : - 2 ^ 31 <= z < 2 ^ 31 -> to_int z = z.
Proof.
  intros Hz. unfold to_int. rewrite Z.mod_small; lia.
Qed.

Lemma to_size_t_small (z : Z) : 0 <= z < 2 ^ 64 -> to_size_t z = z.
Proof.
  intros Hz. unfold to_size_t. apply Z.mod_small. exact Hz.
Qed.

Lemma to_uint32_range (z : Z) : 0 <= to_uint32 z < 2 ^ 32.
Proof.
  unfold to_uint32. apply Z.mod_pos_bound. reflexivity.
Qed.


(** ** Bytes and fixed-width coding *)

Lemma to_char_unsigned (z : Z) : byte.unsigned (to_char z) = z mod 2 ^ 8.
Proof. apply byte.unsigned_of_Z. Qed.

Lemma testbit_above (c n i : Z) :
  0 <= c < 2 ^ n -> n <= i -> Z.testbit c i = false.
Proof.
  intros Hc Hi.
  destruct (Z.ltb_spec n 0) as [Hneg | Hpos].
  - rewrite Z.pow_neg_r in Hc by lia. lia.
  - rewrite <- (Z.mod_small c (2 ^ n)) by lia.
    apply Z.mod_pow2_bits_high. lia.
Qed.

Ltac bits_spec :=
  repeat first
    [ rewrite Z.lor_spec
    | rewrite Z.land_spec
    | rewrite Z.testbit_mod_pow2 by lia
    | rewrite Z.shiftl_spec by lia
    | rewrite Z.shiftr_spec by lia ].

Ltac bits_cases :=
  repeat match goal with
    | |- context [?a <? ?b] => destruct (Z.ltb_spec a b)
    end;
  cbn [andb orb];
  bits_spec;
  repeat match goal with
    | |- context [Z.testbit _ ?j] => rewrite (Z.testbit_neg_r _ j) by lia
    | H : 0 <= ?c < 2 ^ ?n |- context [Z.testbit ?c ?j] =>
        rewrite (testbit_above c n j H) by lia
    end;
  cbn [andb orb];
  rewrite ?orb_false_r, ?andb_false_r;
  try reflexivity; try lia; try (f_equal; lia).

(** The two length bytes of the header, read little-endian as the reader
    does. *)
Lemma length_bytes_decode (length : Z) :
  0 <= length <= 0xffff ->
  Z.lor (byte.unsigned (to_char (Z.land length 0xff)))
        (Z.shiftl (byte.unsigned (to_char (Z.shiftr length 8))) 8) = length.
Proof.
  intros Hlen. rewrite !to_char_unsigned.
  assert (Hr : 0 <= length < 2 ^ 16) by lia.
  change 0xff with (Z.ones 8). rewrite Z.land_ones by lia.
  apply Z.bits_inj'. intros i Hi. bits_spec. bits_cases.
Qed.

Lemma DecodeFixed32_EncodeFixed32 (value : Z) :
  0 <= value < 2 ^ 32 ->
  coding.DecodeFixed32 (coding.EncodeFixed32 value) = value.
Proof.
  intros Hv. unfold coding.DecodeFixed32, coding.EncodeFixed32.
  cbn [nth]. rewrite !to_char_unsigned.
  apply Z.bits_inj'. intros i Hi. bits_spec. bits_cases.
Qed.

Lemma rotate_right_range (n c : Z) :
  0 <= n <= 32 -> 0 <= c < 2 ^ 32 -> 0 <= crc32c.rotate_right n c < 2 ^ 32.
Proof.
  intros Hn Hc. unfold crc32c.rotate_right, to_uint32.
  assert (H1 : 0 <= Z.shiftr c n < 2 ^ 32).
  { rewrite Z.shiftr_div_pow2 by lia. split.
    - apply Z.div_pos; lia.
    - apply Z.div_lt_upper_bound; [lia|].
      assert (1 <= 2 ^ n) by (apply (Z.pow_le_mono_r 2 0 n); lia). nia. }
  pose proof (Z.mod_pos_bound (Z.shiftl c (32 - n)) (2 ^ 32) ltac:(lia)) as H2.
  split.
  - apply Z.lor_nonneg. lia.
  - destruct (Z.eq_dec (Z.lor (Z.shiftr c n) (Z.shiftl c (32 - n) mod 2 ^ 32)) 0) as [E|E];
      [rewrite E; lia|].
    apply Z.log2_lt_pow2; [pose proof (Z.lor_nonneg (Z.shiftr c n) (Z.shiftl c (32 - n) mod 2 ^ 32)); lia|].
    rewrite Z.log2_lor by lia.
    apply Z.max_lub_lt.
    + destruct (Z.eq_dec (Z.shiftr c n) 0) as [E1|E1]; [rewrite E1; cbn; lia|].
      apply Z.log2_lt_pow2; lia.
    + destruct (Z.eq_dec (Z.shiftl c (32 - n) mod 2 ^ 32) 0) as [E1|E1]; [rewrite E1; cbn; lia|].
      apply Z.log2_lt_pow2; lia.
Qed.

(** Rotating to the right by [n] and then by [32 - n] bits is the
    identity on 32-bit words. *)
Lemma rotate_right_inverse (n c : Z) :
  0 <= n <= 32 -> 0 <= c < 2 ^ 32 ->
  crc32c.rotate_right (32 - n) (crc32c.rotate_right n c) = c.
Proof.
  intros Hn Hc. unfold crc32c.rotate_right, to_uint32.
  replace (32 - (32 - n)) with n by lia.
  apply Z.bits_inj'. intros i Hi.
  destruct (Z.ltb_spec i 32) as [Hlo | Hhi]; destruct (Z.ltb_spec i n) as [Hin | Hin];
    bits_spec; bits_cases.
Qed.

(** [Unmask] undoes [Mask]. *)
Lemma Unmask_Mask (kMaskRotate kMaskDelta crc : Z) :
  0 <= kMaskRotate <= 32 ->
  0 <= crc < 2 ^ 32 ->
  crc32c.Unmask kMaskRotate kMaskDelta (crc32c.Mask kMaskRotate kMaskDelta crc) = crc.
Proof.
  intros Hrot Hcrc. unfold crc32c.Unmask, crc32c.Mask.
  pose proof (rotate_right_range kMaskRotate crc Hrot Hcrc) as Hr.
  unfold to_uint32 at 1 2.
  rewrite Zminus_mod_idemp_l.
  replace (crc32c.rotate_right kMaskRotate crc + kMaskDelta - kMaskDelta)
    with (crc32c.rotate_right kMaskRotate crc) by lia.
  rewrite Z.mod_small by exact Hr.
  apply rotate_right_inverse; assumption.
Qed.

Lemma Mask_range (kMaskRotate kMaskDelta crc : Z) :
  0 <= crc32c.Mask kMaskRotate kMaskDelta crc < 2 ^ 32.
Proof. apply to_uint32_range. Qed.
Ltac bounds := unfold kBlockSize, kHeaderSize in *; lia.

Ltac casts :=
  repeat match goal with
    | |- context [to_int ?z] => rewrite (to_int_small z) by bounds
    | |- context [to_size_t ?z] => rewrite (to_size_t_small z) by bounds
    end.

Ltac mstep :=
  cbv beta iota delta
    [bind assert ret get_block_offset set_block_offset dest_Append dest_Flush
     with_dest];
  cbn [block_offset_ dest_ type_crc_ fst snd].

(** ** One chunk *)

Section Chunk.

Variable Value : list byte -> Z.
Variable Extend : Z -> list byte -> Z.
Variable kMaskRotate kMaskDelta : Z.
Context {F : Type} `{WritableFile F}.

Local Abbreviation FormatHeader := (FormatHeader Extend kMaskRotate kMaskDelta).
Local Abbreviation EmitPhysicalRecord := (EmitPhysicalRecord Extend kMaskRotate kMaskDelta).
Local Abbreviation AddRecord_body := (AddRecord_body Extend kMaskRotate kMaskDelta).

(** Within its two assertions, [EmitPhysicalRecord] returns: the sink
    has gone through [emit_sink] and the cursor has advanced by the
    header and the payload. *)
Lemma EmitPhysicalRecord_eq (t : RecordType) (ptr : list byte) (length : Z)
    (w : Writer F) :
  0 <= length <= 0xffff ->
  0 <= block_offset_ w ->
  block_offset_ w + kHeaderSize + length <= kBlockSize ->
  EmitPhysicalRecord t ptr length w =
  Returns
    (fst (emit_sink (FormatHeader (type_crc_ w) t ptr length)
            (firstn (Z.to_nat length) ptr) (dest_ w)),
     {| dest_ := snd (emit_sink (FormatHeader (type_crc_ w) t ptr length)
                        (firstn (Z.to_nat length) ptr) (dest_ w));
        block_offset_ := block_offset_ w + kHeaderSize + length;
        type_crc_ := type_crc_ w |}).
Proof.
  intros Hlen Hbo Hfit.
  unfold log.EmitPhysicalRecord, emit_sink.
  mstep. rewrite (proj2 (Z.leb_le _ _)) by lia.
  mstep. casts. rewrite (proj2 (Z.leb_le _ _)) by lia.
  mstep.
  destruct (Append _ (dest_ w)) as [s1 d1].
  destruct (ok s1); mstep.
  - destruct (Append _ d1) as [s2 d2].
    destruct (ok s2); mstep.
    + destruct (Flush d2) as [s3 d3]; mstep. casts. rewrite Z.add_assoc. reflexivity.
    + casts. rewrite Z.add_assoc. reflexivity.
  - casts. rewrite Z.add_assoc. reflexivity.
Qed.


(** ** One pass of the loop *)

Lemma firstn_repeat_le (A : Type) (x : A) (n m : nat) :
  (n <= m)%nat -> firstn n (repeat x m) = repeat x n.
Proof.
  revert m. induction n as [|n IH]; intros [|m] Hle; cbn; try reflexivity; try lia.
  f_equal. apply IH. lia.
Qed.

(** A pass from a cursor within the block returns: the block is switched,
    the chunk is [fragment_length] bytes long and of type [fragment_type],
    and the cursor ends behind it. *)
Lemma AddRecord_body_eq (ptr : list byte) (left : Z) (begin : bool)
    (w : Writer F) :
  cursor_ok w ->
  0 <= left ->
  let n := fragment_length (block_offset_ w) left in
  let io := emit_sink
              (FormatHeader (type_crc_ w) (fragment_type begin (left =? n)) ptr n)
              (firstn (Z.to_nat n) ptr)
              (switch_dest (block_offset_ w) (dest_ w)) in
  AddRecord_body ptr left begin w =
  Returns
    ((fst io, skipn (Z.to_nat n) ptr, left - n),
     {| dest_ := snd io;
        block_offset_ := switch_offset (block_offset_ w) + kHeaderSize + n;
        type_crc_ := type_crc_ w |}).
Proof.
  intros [Hlo Hhi] Hleft n io.
  assert (Hsw : 0 <= switch_offset (block_offset_ w) <= kBlockSize - kHeaderSize).
  { unfold switch_offset. destruct (Z.ltb_spec (kBlockSize - block_offset_ w) kHeaderSize); bounds. }
  assert (Hn : 0 <= n <= kBlockSize - switch_offset (block_offset_ w) - kHeaderSize).
  { subst n. unfold fragment_length. lia. }
  assert (Hmin : (if left <? kBlockSize - switch_offset (block_offset_ w) - kHeaderSize
                  then left
                  else kBlockSize - switch_offset (block_offset_ w) - kHeaderSize) = n).
  { subst n. unfold fragment_length.
    destruct (Z.ltb_spec left (kBlockSize - switch_offset (block_offset_ w) - kHeaderSize)); lia. }
  assert (Htype : forall e : bool,
             (if begin && e then kFullType
              else if begin then kFirstType
              else if e then kLastType else kMiddleType) = fragment_type begin e).
  { intros e. destruct begin, e; reflexivity. }
  subst io. unfold log.AddRecord_body. mstep. casts.
  rewrite (proj2 (Z.leb_le _ _)) by lia. mstep.
  unfold switch_dest, switch_offset in *. clearbody n.
  destruct (Z.ltb_spec (kBlockSize - block_offset_ w) kHeaderSize) as [Hsmall | Hbig].
  - destruct (Z.ltb_spec 0 (kBlockSize - block_offset_ w)) as [Hpos | Hzero]; mstep.
    + rewrite firstn_repeat_le by bounds. fold (trailer (block_offset_ w)).
      destruct (Append (trailer (block_offset_ w)) (dest_ w)) as [s0 d0]; mstep.
      casts. rewrite (proj2 (Z.leb_le _ _)) by bounds. mstep.
      rewrite Hmin, Htype, EmitPhysicalRecord_eq; cbn [block_offset_]; try bounds.
      cbn [andb]. reflexivity.
    + casts. rewrite (proj2 (Z.leb_le _ _)) by bounds. mstep.
      rewrite Hmin, Htype, EmitPhysicalRecord_eq; cbn [block_offset_]; try bounds.
      cbn [andb]. reflexivity.
  - mstep. casts. rewrite (proj2 (Z.leb_le _ _)) by bounds. mstep.
    rewrite Hmin, Htype, EmitPhysicalRecord_eq; cbn [block_offset_]; try bounds.
    rewrite andb_false_r. reflexivity.
Qed.

(** ** The loop *)

Local Abbreviation AddRecord_loop := (AddRecord_loop Extend kMaskRotate kMaskDelta).
Local Abbreviation AddRecord := (AddRecord Extend kMaskRotate kMaskDelta).

Lemma AddRecord_loop_S (fuel : nat) (ptr : list byte) (left : Z) (begin : bool)
    (w : Writer F) :
  AddRecord_loop (S fuel) ptr left begin w =
  match AddRecord_body ptr left begin w with
  | Returns ((s, ptr', left'), w') =>
      if ok s && (0 <? left') then AddRecord_loop fuel ptr' left' false w'
      else Returns (s, w')
  | AssertionFailure => AssertionFailure
  | OutOfFuel => OutOfFuel
  end.
Proof.
  cbn [log.AddRecord_loop]. unfold bind.
  destruct (AddRecord_body ptr left begin w) as [[[[s ptr'] left'] w']| |];
    try reflexivity.
  destruct (ok s && (0 <? left')); reflexivity.
Qed.

(** Where the cursor is after a pass that leaves bytes of the record:
    at the end of the block. *)
Lemma fragment_length_partial (bo left : Z) :
  0 < left - fragment_length bo left ->
  switch_offset bo + kHeaderSize + fragment_length bo left = kBlockSize.
Proof.
  unfold fragment_length. lia.
Qed.

Lemma switch_offset_range (bo : Z) :
  0 <= bo <= kBlockSize ->
  0 <= switch_offset bo <= kBlockSize - kHeaderSize.
Proof.
  intros Hbo. unfold switch_offset.
  destruct (Z.ltb_spec (kBlockSize - bo) kHeaderSize); bounds.
Qed.

Lemma fragment_length_range (bo left : Z) :
  0 <= bo <= kBlockSize ->
  0 <= left ->
  0 <= fragment_length bo left <= left /\
  switch_offset bo + kHeaderSize + fragment_length bo left <= kBlockSize.
Proof.
  intros Hbo Hleft. pose proof (switch_offset_range bo Hbo).
  unfold fragment_length. lia.
Qed.

Lemma fragment_length_end_of_block (left : Z) :
  0 < left -> 0 < fragment_length kBlockSize left.
Proof.
  intros Hleft. unfold fragment_length, switch_offset.
  cbn. lia.
Qed.

(** The loop returns when it is given as many passes as the record has
    bytes and two more (one more from the end of a block): no assertion
    fails, and the cursor is again within the block. *)
Lemma AddRecord_loop_returns (fuel : nat) :
  forall (ptr : list byte) (left : Z) (begin : bool) (w : Writer F),
    cursor_ok w ->
    0 <= left ->
    left + 2 <= Z.of_nat fuel \/
    (block_offset_ w = kBlockSize /\ left + 1 <= Z.of_nat fuel) ->
    exists (s : Status) (w' : Writer F),
      AddRecord_loop fuel ptr left begin w = Returns (s, w') /\
      kHeaderSize <= block_offset_ w' <= kBlockSize /\
      type_crc_ w' = type_crc_ w.
Proof.
  induction fuel as [|fuel IH]; intros ptr left begin w Hw Hleft Hfuel.
  - lia.
  - rewrite AddRecord_loop_S, AddRecord_body_eq by assumption.
    pose proof (fragment_length_range (block_offset_ w) left Hw Hleft) as [Hn Hfit].
    pose proof (switch_offset_range (block_offset_ w) Hw) as Hsw.
    set (n := fragment_length (block_offset_ w) left) in *.
    set (io := emit_sink _ _ _).
    destruct (ok (fst io) && (0 <? left - n)) eqn:Hgo.
    + apply andb_prop in Hgo. destruct Hgo as [_ Hmore].
      apply Z.ltb_lt in Hmore.
      pose proof (fragment_length_partial (block_offset_ w) left Hmore) as Hend.
      fold n in Hend.
      edestruct (IH (skipn (Z.to_nat n) ptr) (left - n) false) as (s & w' & Hrun & Hbo & Htc);
        [ | | | exists s, w'; split; [exact Hrun | split; [exact Hbo | exact Htc]] ].
      * unfold cursor_ok. cbn [block_offset_]. bounds.
      * lia.
      * right. cbn [block_offset_]. split; [exact Hend|].
        destruct Hfuel as [Hfuel | [Hbo Hfuel]]; [lia|].
        assert (0 < n).
        { subst n. rewrite Hbo in *. apply fragment_length_end_of_block. lia. }
        lia.
    + eexists _, _. split; [reflexivity|]. cbn [block_offset_ type_crc_].
      split; [bounds | reflexivity].
Qed.

Lemma AddRecord_returns (slice : list byte) (w : Writer F) :
  cursor_ok w ->
  exists (s : Status) (w' : Writer F),
    AddRecord slice w = Returns (s, w') /\
    kHeaderSize <= block_offset_ w' <= kBlockSize /\
    type_crc_ w' = type_crc_ w.
Proof.
  intros Hw. unfold log.AddRecord.
  apply AddRecord_loop_returns; [exact Hw | lia | left; lia].
Qed.

Lemma Writer_new_cursor_ok (dest : F) : cursor_ok (Writer_new Value dest).
Proof. unfold cursor_ok, Writer_new. cbn [block_offset_]. bounds. Qed.

Lemma Writer_at_cursor_ok (dest : F) (dest_length : Z) :
  cursor_ok (Writer_at Value dest dest_length).
Proof.
  unfold cursor_ok, Writer_at. cbn [block_offset_].
  pose proof (Z.mod_pos_bound (dest_length mod 2 ^ 64) kBlockSize ltac:(reflexivity)).
  rewrite to_int_small; bounds.
Qed.

(** [EmitPhysicalRecord] stops at an assertion exactly when one of its
    two preconditions is violated. *)
Lemma EmitPhysicalRecord_assertion (t : RecordType) (ptr : list byte)
    (length : Z) (w : Writer F) :
  0 <= length ->
  cursor_ok w ->
  EmitPhysicalRecord t ptr length w = AssertionFailure <->
  ~ (length <= 0xffff /\ block_offset_ w + kHeaderSize + length <= kBlockSize).
Proof.
  intros Hlen [Hlo Hhi]. split.
  - intros Hfail [H1 H2].
    rewrite EmitPhysicalRecord_eq in Hfail by lia. discriminate Hfail.
  - intros Hnot. unfold log.EmitPhysicalRecord. mstep.
    destruct (Z.leb_spec length 65535) as [H1 | H1]; mstep; [|reflexivity].
    casts.
    destruct (Z.leb_spec (block_offset_ w + kHeaderSize + length) kBlockSize)
      as [H2 | H2]; mstep; [|reflexivity].
    exfalso. apply Hnot. split; assumption.
Qed.

(** A pass that leaves bytes of the record ends at the end of its block:
    the passes after the first start there, and switch to the next block
    without a byte of padding. *)
Lemma AddRecord_body_fills_block (ptr ptr' : list byte) (left left' : Z)
    (begin : bool) (s : Status) (w w' : Writer F) :
  cursor_ok w ->
  0 <= left ->
  AddRecord_body ptr left begin w = Returns ((s, ptr', left'), w') ->
  0 < left' ->
  block_offset_ w' = kBlockSize.
Proof.
  intros Hw Hleft Hbody Hmore.
  rewrite AddRecord_body_eq in Hbody by assumption.
  injection Hbody as _ _ Hleft' Hw'. subst left' w'. cbn [block_offset_].
  apply fragment_length_partial. exact Hmore.
Qed.

(** The checksum table of a constructed writer holds, for every record
    type, the checksum of its tag byte. *)
Lemma InitTypeCrc_nth (t : RecordType) :
  nth (Z.to_nat (tag t)) (InitTypeCrc Value) 0 = Value [to_char (tag t)].
Proof.
  destruct t; reflexivity.
Qed.

(** ** Padding *)

(** With 1 to 6 bytes left in the block, a pass is the pass of the padded
    writer. *)
Lemma AddRecord_body_padded (ptr : list byte) (left : Z) (begin : bool)
    (w : Writer F) :
  kBlockSize - 6 <= block_offset_ w <= kBlockSize - 1 ->
  0 <= left ->
  AddRecord_body ptr left begin w = AddRecord_body ptr left begin (padded w).
Proof.
  intros Hbo Hleft.
  rewrite !AddRecord_body_eq by (unfold cursor_ok, padded; cbn [block_offset_]; bounds).
  unfold padded. cbn [block_offset_ dest_ type_crc_].
  assert (Hoff : switch_offset (block_offset_ w) = 0).
  { unfold switch_offset.
    destruct (Z.ltb_spec (kBlockSize - block_offset_ w) kHeaderSize); [reflexivity | bounds]. }
  assert (Hdest : switch_dest (block_offset_ w) (dest_ w) =
                  snd (Append (trailer (block_offset_ w)) (dest_ w))).
  { unfold switch_dest.
    destruct (Z.ltb_spec 0 (kBlockSize - block_offset_ w)); [|bounds].
    destruct (Z.ltb_spec (kBlockSize - block_offset_ w) kHeaderSize); [reflexivity | bounds]. }
  unfold fragment_length. rewrite Hoff, Hdest.
  change (switch_offset 0) with 0.
  change (switch_dest 0 ?d) with d.
  reflexivity.
Qed.

Lemma AddRecord_loop_padded (fuel : nat) (ptr : list byte) (left : Z)
    (begin : bool) (w : Writer F) :
  kBlockSize - 6 <= block_offset_ w <= kBlockSize - 1 ->
  0 <= left ->
  AddRecord_loop fuel ptr left begin w = AddRecord_loop fuel ptr left begin (padded w).
Proof.
  intros Hbo Hleft. destruct fuel as [|fuel]; [reflexivity|].
  rewrite !AddRecord_loop_S, AddRecord_body_padded by assumption. reflexivity.
Qed.

(** With no byte left in the block, a pass is the pass of the writer at
    the start of the next block: no padding is appended. *)
Lemma AddRecord_body_at_next_block (ptr : list byte) (left : Z) (begin : bool)
    (w : Writer F) :
  block_offset_ w = kBlockSize ->
  0 <= left ->
  AddRecord_body ptr left begin w = AddRecord_body ptr left begin (at_next_block w).
Proof.
  intros Hbo Hleft.
  rewrite !AddRecord_body_eq
    by (unfold cursor_ok, at_next_block; cbn [block_offset_]; bounds).
  unfold at_next_block. cbn [block_offset_ dest_ type_crc_]. rewrite Hbo.
  reflexivity.
Qed.

Lemma AddRecord_loop_at_next_block (fuel : nat) (ptr : list byte) (left : Z)
    (begin : bool) (w : Writer F) :
  block_offset_ w = kBlockSize ->
  0 <= left ->
  AddRecord_loop fuel ptr left begin w =
  AddRecord_loop fuel ptr left begin (at_next_block w).
Proof.
  intros Hbo Hleft. destruct fuel as [|fuel]; [reflexivity|].
  rewrite !AddRecord_loop_S, AddRecord_body_at_next_block by assumption.
  reflexivity.
Qed.

(** ** The cursor between two calls *)

Local Abbreviation between_calls :=
  (between_calls Value Extend kMaskRotate kMaskDelta).

Lemma between_calls_cursor_ok (w : Writer F) : between_calls w -> cursor_ok w.
Proof.
  induction 1 as [dest | dest dest_length | w w' slice s _ IH Hrun].
  - apply Writer_new_cursor_ok.
  - apply Writer_at_cursor_ok.
  - destruct (AddRecord_returns slice w IH) as (s0 & w0 & Hrun0 & Hbo & _).
    rewrite Hrun0 in Hrun. injection Hrun as _ <-.
    unfold cursor_ok. bounds.
Qed.

(** C4 (amended): between any two calls, that is in a writer just
    constructed or left by calls of [AddRecord] that returned with success
    or with an error, on any sink, 0 <= block_offset <= BlockSize; and the
    next [AddRecord] returns and leaves block_offset within the same
    bounds.  The upper bound is reached (a chunk that ends at the end of
    its block leaves the cursor at BlockSize), so it is not strict. *)
Theorem AddRecord_block_offset_bound (w : Writer F) :
  between_calls w ->
  0 <= block_offset_ w <= kBlockSize /\
  (forall slice : list byte,
      exists (s : Status) (w' : Writer F),
        AddRecord slice w = Returns (s, w') /\
        0 <= block_offset_ w' <= kBlockSize).
Proof.
  intros Hw. apply between_calls_cursor_ok in Hw.
  split; [exact Hw|].
  intros slice.
  destruct (AddRecord_returns slice w Hw) as (s & w' & Hrun & Hbo & _).
  exists s, w'. split; [exact Hrun | bounds].
Qed.

(** C8: from a cursor within the block and for a payload of any length,
    [AddRecord] returns: no assertion fails in it or in any
    [EmitPhysicalRecord] it calls, and the cursor it leaves is again
    within the block.  Each pass of its loop is one call of
    [EmitPhysicalRecord], at the cursor the block switch leaves, with a
    length of at most 65535 that fits the block behind the header; and
    [EmitPhysicalRecord] stops at an assertion only when called outside
    these bounds. *)
Theorem AddRecord_assertions_hold (slice : list byte) (w : Writer F) :
  0 <= block_offset_ w <= kBlockSize ->
  (exists (s : Status) (w' : Writer F),
      AddRecord slice w = Returns (s, w') /\ cursor_ok w') /\
  (forall (ptr : list byte) (left : Z) (begin : bool) (w1 : Writer F),
      cursor_ok w1 ->
      0 <= left ->
      let n := fragment_length (block_offset_ w1) left in
      let w2 := {| dest_ := switch_dest (block_offset_ w1) (dest_ w1);
                   block_offset_ := switch_offset (block_offset_ w1);
                   type_crc_ := type_crc_ w1 |} in
      AddRecord_body ptr left begin w1 =
        bind (EmitPhysicalRecord (fragment_type begin (left =? n)) ptr n)
             (fun s => ret (s, skipn (Z.to_nat n) ptr, left - n)) w2 /\
      n <= 0xffff /\
      block_offset_ w2 + kHeaderSize + n <= kBlockSize) /\
  (forall (t : RecordType) (ptr : list byte) (length : Z) (w1 : Writer F),
      0 <= length ->
      cursor_ok w1 ->
      EmitPhysicalRecord t ptr length w1 = AssertionFailure <->
      ~ (length <= 0xffff /\ block_offset_ w1 + kHeaderSize + length <= kBlockSize)).
Proof.
  intros Hw. split; [|split].
  - destruct (AddRecord_returns slice w Hw) as (s & w' & Hrun & Hbo & _).
    exists s, w'. split; [exact Hrun | unfold cursor_ok; bounds].
  - intros ptr left begin w1 Hw1 Hleft n w2.
    pose proof (fragment_length_range (block_offset_ w1) left Hw1 Hleft) as [Hn Hfit].
    pose proof (switch_offset_range (block_offset_ w1) Hw1) as Hsw.
    fold n in Hn, Hfit.
    split; [|split].
    + rewrite AddRecord_body_eq by assumption.
      unfold bind. rewrite EmitPhysicalRecord_eq; subst w2; cbn [block_offset_];
        try bounds.
      reflexivity.
    + bounds.
    + subst w2. cbn [block_offset_]. exact Hfit.
  - intros t ptr length w1. apply EmitPhysicalRecord_assertion.
Qed.

End Chunk.

(** ** The scripted sink *)

Lemma emit_sink_scripted (buf p : list byte) (d : ScriptedFile) :
  emit_sink buf p d =
  (nth (ops_done (script d) - 1) (script d) OK,
   {| contents := contents d ++ accepted (ops_done (script d)) buf p;
      calls := calls d ++ firstn (ops_done (script d)) (record_calls buf p);
      script := skipn (ops_done (script d)) (script d) |}).
Proof.
  unfold emit_sink, ops_done. cbn [Append Flush ScriptedFile_WritableFile].
  unfold ScriptedFile_Append, ScriptedFile_Flush.
  destruct d as [cont cs sc]. cbn [contents calls script].
  destruct sc as [|s1 [|s2 [|s3 r]]]; try destruct s1; try destruct s2;
    cbn; rewrite <- ?app_assoc, ?app_nil_r; reflexivity.
Qed.

Lemma ops_done_range (sc : list Status) : (1 <= ops_done sc <= 3)%nat.
Proof.
  unfold ops_done. destruct (ok (nth 0 sc OK)), (ok (nth 1 sc OK)); lia.
Qed.

(** A chunk whose status is OK went through whole. *)
Lemma ops_done_ok (sc : list Status) :
  ok (nth (ops_done sc - 1) sc OK) = true -> ops_done sc = 3%nat.
Proof.
  unfold ops_done.
  destruct (ok (nth 0 sc OK)) eqn:H0; [destruct (ok (nth 1 sc OK)) eqn:H1|];
    cbn; congruence.
Qed.

Lemma ok_true (s : Status) : ok s = true -> s = OK.
Proof. destruct s; [reflexivity | discriminate]. Qed.

Lemma switch_dest_scripted (bo : Z) (d : ScriptedFile) :
  calls (switch_dest bo d) = calls d ++ padding_calls bo /\
  script (switch_dest bo d) = skipn (List.length (padding_calls bo)) (script d).
Proof.
  unfold switch_dest, padding_calls.
  destruct ((0 <? kBlockSize - bo) && (kBlockSize - bo <? kHeaderSize)).
  - cbn. split; reflexivity.
  - cbn. rewrite app_nil_r. split; reflexivity.
Qed.

Section Scripted.

Variable Value : list byte -> Z.
Variable Extend : Z -> list byte -> Z.
Variable kMaskRotate kMaskDelta : Z.

Local Abbreviation FormatHeader := (FormatHeader Extend kMaskRotate kMaskDelta).
Local Abbreviation EmitPhysicalRecord := (EmitPhysicalRecord Extend kMaskRotate kMaskDelta).
Local Abbreviation AddRecord_body := (AddRecord_body Extend kMaskRotate kMaskDelta).
Local Abbreviation AddRecord_loop := (AddRecord_loop Extend kMaskRotate kMaskDelta).
Local Abbreviation AddRecord := (AddRecord Extend kMaskRotate kMaskDelta).
Local Abbreviation chunk_header := (chunk.header Extend kMaskRotate kMaskDelta).
Local Abbreviation chunk_calls := (chunk.calls Extend kMaskRotate kMaskDelta).
Local Abbreviation chunk_bytes := (chunk.bytes Extend kMaskRotate kMaskDelta).

(** The header depends on the payload only. *)
Lemma FormatHeader_firstn (tc : list Z) (t : RecordType) (ptr : list byte) (n : Z) :
  0 <= n <= Z.of_nat (List.length ptr) ->
  FormatHeader tc t ptr n = chunk_header tc (t, firstn (Z.to_nat n) ptr).
Proof.
  intros Hn. unfold chunk.header, log.FormatHeader. cbn [fst snd].
  rewrite length_firstn, Nat.min_l by lia.
  rewrite Z2Nat.id by lia. rewrite firstn_firstn, Nat.min_id. reflexivity.
Qed.

Lemma nonfinal_types_false (m : nat) :
  nonfinal_types false m = repeat kMiddleType m.
Proof. destruct m; reflexivity. Qed.

Lemma nonfinal_types_length (begin : bool) (m : nat) :
  List.length (nonfinal_types begin m) = m.
Proof. destruct m; cbn; [reflexivity | rewrite repeat_length; reflexivity]. Qed.

Lemma padding_calls_end_of_block : padding_calls kBlockSize = [].
Proof. reflexivity. Qed.

Lemma is_nil_skipn (ptr : list byte) (n : Z) :
  0 <= n <= Z.of_nat (List.length ptr) ->
  is_nil (skipn (Z.to_nat n) ptr) = (Z.of_nat (List.length ptr) =? n).
Proof.
  intros Hn.
  pose proof (length_skipn (Z.to_nat n) ptr) as Hlen.
  destruct (skipn (Z.to_nat n) ptr) as [|x r]; cbn [is_nil List.length] in *;
    symmetry; [apply Z.eqb_eq | apply Z.eqb_neq]; lia.
Qed.

(** What a run of the loop on the scripted sink leaves behind, whatever
    its status: the chunks [done] that went through, each with all of its
    three sink calls, then the chunk [cur] at which the loop stopped, of
    which [k] sink calls were made, and the bytes [rest] of the record
    that were not emitted.  The status returned is the status of the
    last sink call. *)
Lemma AddRecord_loop_trace (fuel : nat) :
  forall (ptr : list byte) (begin : bool) (w w' : Writer ScriptedFile)
         (s : Status),
    cursor_ok w ->
    AddRecord_loop fuel ptr (Z.of_nat (List.length ptr)) begin w = Returns (s, w') ->
    exists (done : list (list byte)) (cur rest : list byte) (k : nat),
      let tc := type_crc_ w in
      let bo := block_offset_ w in
      let before := combine (nonfinal_types begin (List.length done)) done in
      let c := (fragment_type (begin && is_nil done) (is_nil rest), cur) in
      let ops := (List.length (padding_calls bo) + 3 * List.length done + k)%nat in
      ptr = concat done ++ cur ++ rest /\
      (1 <= k <= 3)%nat /\
      calls (dest_ w') =
        calls (dest_ w) ++ padding_calls bo
          ++ flat_map (chunk_calls tc) before ++ firstn k (chunk_calls tc c) /\
      contents (dest_ w') =
        contents (switch_dest bo (dest_ w))
          ++ flat_map (chunk_bytes tc) before ++ accepted k (chunk_header tc c) cur /\
      script (dest_ w') = skipn ops (script (dest_ w)) /\
      s = nth (ops - 1) (script (dest_ w)) OK /\
      (ok s = true -> k = 3%nat /\ rest = []) /\
      block_offset_ w' =
        (if is_nil done then switch_offset bo else 0) + kHeaderSize
        + Z.of_nat (List.length cur) /\
      Z.of_nat (List.length (hd cur done)) =
        fragment_length bo (Z.of_nat (List.length ptr)) /\
      (is_nil done = false ->
       Z.of_nat (List.length (hd cur done)) < Z.of_nat (List.length ptr)) /\
      type_crc_ w' = type_crc_ w.
Proof.
  induction fuel as [|fuel IH]; intros ptr begin w w' s Hw Hrun.
  - discriminate Hrun.
  - rewrite AddRecord_loop_S, AddRecord_body_eq in Hrun by (assumption || lia).
    pose proof (fragment_length_range (block_offset_ w) (Z.of_nat (List.length ptr)) Hw
                  ltac:(lia)) as [Hn Hfit].
    pose proof (switch_offset_range (block_offset_ w) Hw) as Hsw.
    set (left := Z.of_nat (List.length ptr)) in *.
    set (n := fragment_length (block_offset_ w) left) in *.
    rewrite FormatHeader_firstn in Hrun by lia.
    rewrite emit_sink_scripted in Hrun. cbn [fst snd] in Hrun.
    destruct (switch_dest_scripted (block_offset_ w) (dest_ w)) as [Hswc Hsws].
    set (d0 := switch_dest (block_offset_ w) (dest_ w)) in *.
    assert (Hcur : Z.of_nat (List.length (firstn (Z.to_nat n) ptr)) = n).
    { rewrite length_firstn. lia. }
    pose proof (is_nil_skipn ptr n ltac:(lia)) as Hfinal. fold left in Hfinal.
    rewrite <- Hfinal in Hrun.
    destruct (ok (nth (ops_done (script d0) - 1) (script d0) OK) && (0 <? left - n))
      eqn:Hgo.
    + apply andb_prop in Hgo. destruct Hgo as [Hok Hmore].
      apply Z.ltb_lt in Hmore.
      pose proof (ops_done_ok _ Hok) as H3.
      pose proof (fragment_length_partial (block_offset_ w) left Hmore) as Hend.
      fold n in Hend.
      assert (Hskip : left - n = Z.of_nat (List.length (skipn (Z.to_nat n) ptr))).
      { rewrite length_skipn. lia. }
      assert (Hnil : is_nil (skipn (Z.to_nat n) ptr) = false).
      { rewrite Hfinal. apply Z.eqb_neq. lia. }
      rewrite Hskip, H3, Hnil in Hrun.
      change (firstn 3 (record_calls ?a ?b)) with (record_calls a b) in Hrun.
      apply IH in Hrun; [|unfold cursor_ok; cbn [block_offset_]; bounds].
      cbn [block_offset_ dest_ type_crc_ calls contents script] in Hrun.
      destruct Hrun as (done & cur & rest & k & Hptr & Hk & Hcalls & Hcont
                          & Hscript & Hs & Hoks & Hbo & Hhd & _ & Htc).
      rewrite Hend in Hcalls, Hcont, Hscript, Hs, Hbo, Hhd.
      rewrite padding_calls_end_of_block in Hcalls, Hscript, Hs.
      rewrite nonfinal_types_false in Hcalls, Hcont.
      change (switch_dest kBlockSize ?d) with d in Hcont.
      change (switch_offset kBlockSize) with 0 in Hbo.
      cbn [andb app List.length Nat.add contents] in Hcalls, Hcont, Hscript, Hs.
      exists (firstn (Z.to_nat n) ptr :: done), cur, rest, k.
      cbn [List.length is_nil andb concat hd nonfinal_types combine flat_map].
      rewrite andb_false_r.
      split; [rewrite <- app_assoc, <- Hptr; symmetry; apply firstn_skipn|].
      split; [exact Hk|].
      split; [rewrite Hcalls, Hswc, <- !app_assoc; reflexivity|].
      split; [rewrite Hcont, <- !app_assoc; reflexivity|].
      split; [rewrite Hscript, Hsws, !skipn_skipn; f_equal; lia|].
      split; [rewrite Hs, Hsws, !nth_skipn; f_equal; lia|].
      split; [exact Hoks|].
      split; [rewrite Hbo; destruct done; reflexivity|].
      split; [exact Hcur|].
      split; [intros _; fold left; lia | exact Htc].
    + assert (Hstop : s = nth (ops_done (script d0) - 1) (script d0) OK /\
                      w' = {| dest_ := {| contents := contents d0 ++ accepted (ops_done (script d0)) (chunk_header (type_crc_ w) (fragment_type begin (is_nil (skipn (Z.to_nat n) ptr)), firstn (Z.to_nat n) ptr)) (firstn (Z.to_nat n) ptr);
                                          calls := calls d0 ++ firstn (ops_done (script d0)) (record_calls (chunk_header (type_crc_ w) (fragment_type begin (is_nil (skipn (Z.to_nat n) ptr)), firstn (Z.to_nat n) ptr)) (firstn (Z.to_nat n) ptr));
                                          script := skipn (ops_done (script d0)) (script d0) |};
                              block_offset_ := switch_offset (block_offset_ w) + kHeaderSize + n;
                              type_crc_ := type_crc_ w |}).
      { split; congruence. }
      clear Hrun. destruct Hstop as [Hs Hw'].
      exists [], (firstn (Z.to_nat n) ptr), (skipn (Z.to_nat n) ptr), (ops_done (script d0)).
      pose proof (ops_done_range (script d0)) as Hk.
      subst w'. set (k := ops_done (script d0)) in *. cbn [List.length is_nil andb concat hd nonfinal_types combine flat_map
                     dest_ block_offset_ type_crc_ calls contents script app].
      rewrite andb_true_r, Nat.add_0_r.
      split; [symmetry; apply firstn_skipn|].
      split; [exact Hk|].
      split; [rewrite Hswc, <- !app_assoc; reflexivity|].
      split; [reflexivity|].
      split; [rewrite Hsws, !skipn_skipn; f_equal; lia|].
      split; [rewrite Hs, Hsws, !nth_skipn; f_equal; lia|].
      split.
      { intros Hok. rewrite Hs in Hok. rewrite Hok in Hgo.
        split; [exact (ops_done_ok _ Hok)|].
        cbn [andb] in Hgo. apply Z.ltb_ge in Hgo.
        apply skipn_all2. lia. }
      split; [rewrite Hcur; reflexivity|].
      split; [exact Hcur|].
      split; [discriminate | reflexivity].
Qed.

(** One pass on the scripted sink: its chunk, the calls made for it and
    the cursor behind it. *)
Lemma AddRecord_body_scripted (ptr : list byte) (begin : bool)
    (w : Writer ScriptedFile) :
  cursor_ok w ->
  let left := Z.of_nat (List.length ptr) in
  let n := fragment_length (block_offset_ w) left in
  let d0 := switch_dest (block_offset_ w) (dest_ w) in
  let c := (fragment_type begin (left =? n), firstn (Z.to_nat n) ptr) in
  let k := ops_done (script d0) in
  AddRecord_body ptr left begin w =
  Returns
    ((nth (k - 1) (script d0) OK, skipn (Z.to_nat n) ptr, left - n),
     {| dest_ := {| contents := contents d0 ++ accepted k (chunk_header (type_crc_ w) c) (snd c);
                    calls := calls d0 ++ firstn k (chunk_calls (type_crc_ w) c);
                    script := skipn k (script d0) |};
        block_offset_ := switch_offset (block_offset_ w) + kHeaderSize + n;
        type_crc_ := type_crc_ w |}).
Proof.
  intros Hw left n d0 c k.
  pose proof (fragment_length_range (block_offset_ w) left Hw ltac:(lia)) as [Hn _].
  rewrite AddRecord_body_eq by (assumption || lia).
  fold left n d0. rewrite FormatHeader_firstn by (fold n; lia).
  rewrite emit_sink_scripted. reflexivity.
Qed.

(** A run of the loop that returns OK, unfolded by one pass. *)
Lemma AddRecord_loop_OK_step (fuel : nat) (ptr : list byte) (begin : bool)
    (w w' : Writer ScriptedFile) :
  cursor_ok w ->
  AddRecord_loop (S fuel) ptr (Z.of_nat (List.length ptr)) begin w = Returns (OK, w') ->
  let left := Z.of_nat (List.length ptr) in
  let n := fragment_length (block_offset_ w) left in
  let d0 := switch_dest (block_offset_ w) (dest_ w) in
  let c := (fragment_type begin (left =? n), firstn (Z.to_nat n) ptr) in
  let w1 := {| dest_ := {| contents := contents d0 ++ chunk_bytes (type_crc_ w) c;
                           calls := calls d0 ++ chunk_calls (type_crc_ w) c;
                           script := skipn 3 (script d0) |};
               block_offset_ := switch_offset (block_offset_ w) + kHeaderSize + n;
               type_crc_ := type_crc_ w |} in
  if 0 <? left - n
  then AddRecord_loop fuel (skipn (Z.to_nat n) ptr)
         (Z.of_nat (List.length (skipn (Z.to_nat n) ptr))) false w1 = Returns (OK, w')
  else w' = w1.
Proof.
  intros Hw Hrun left n d0 c w1.
  pose proof (fragment_length_range (block_offset_ w) left Hw ltac:(lia)) as [Hn _].
  fold n in Hn.
  rewrite AddRecord_loop_S, AddRecord_body_scripted in Hrun by assumption.
  fold left n d0 c in Hrun.
  assert (Hok : nth (ops_done (script d0) - 1) (script d0) OK = OK).
  { destruct (ok (nth (ops_done (script d0) - 1) (script d0) OK)) eqn:E.
    - apply ok_true. exact E.
    - cbn [andb] in Hrun. congruence. }
  pose proof (ops_done_ok (script d0)) as H3. rewrite Hok in H3.
  specialize (H3 eq_refl). rewrite Hok, H3 in Hrun.
  cbn [ok andb] in Hrun.
  change (firstn 3 (chunk_calls ?a ?b)) with (chunk_calls a b) in Hrun.
  change (accepted 3 ?a ?b) with (a ++ b) in Hrun.
  fold (chunk_bytes (type_crc_ w) c) in Hrun. fold w1 in Hrun.
  destruct (0 <? left - n) eqn:Hmore.
  - replace (Z.of_nat (List.length (skipn (Z.to_nat n) ptr))) with (left - n)
      by (rewrite length_skipn; lia).
    exact Hrun.
  - congruence.
Qed.

Lemma nth_all_OK (sc : list Status) (i : nat) :
  Forall (fun s => s = OK) sc -> nth i sc OK = OK.
Proof.
  intros Hall. revert i. induction Hall as [|s sc Hs _ IH]; intros [|i]; cbn; auto.
Qed.

(** On a sink that does not fail, [AddRecord] returns OK. *)
Lemma AddRecord_script_OK (slice : list byte) (w : Writer ScriptedFile) :
  cursor_ok w ->
  Forall (fun s => s = OK) (script (dest_ w)) ->
  exists w' : Writer ScriptedFile, AddRecord slice w = Returns (OK, w').
Proof.
  intros Hw Hall.
  destruct (AddRecord_returns Extend kMaskRotate kMaskDelta slice w Hw)
    as (s & w' & Hrun & _ & _).
  pose proof Hrun as Htrace. unfold log.AddRecord in Htrace.
  apply AddRecord_loop_trace in Htrace; [|exact Hw].
  destruct Htrace as (done & cur & rest & k & _ & _ & _ & _ & _ & Hs & _).
  rewrite nth_all_OK in Hs by exact Hall. subst s.
  exists w'. exact Hrun.
Qed.

(** ** Scenario A and the length of a chunk *)

Lemma fragment_length_fresh_block (bo left : Z) :
  bo = 0 \/ bo = kBlockSize ->
  fragment_length bo left = Z.min left (kBlockSize - kHeaderSize).
Proof.
  intros [-> | ->]; reflexivity.
Qed.

(** C1: [AddRecord] of a payload of 70000 bytes on a fresh writer returns
    OK when the sink does not fail, and whenever it returns OK it has sent
    the sink three chunks in order, of type First with the first 32761
    bytes, of type Middle with the next 32761 bytes and of type Last with
    the last 4478 bytes, and leaves block_offset at 4485.  In general, in
    every pass of the loop the payload of the chunk is the minimum of the
    bytes of the record that remain and of the bytes of the block behind
    the 7 bytes of the header. *)
Theorem AddRecord_scenario_A (dest : ScriptedFile) (slice : list byte) :
  Z.of_nat (List.length slice) = 70000 ->
  (Forall (fun s => s = OK) (script dest) ->
   exists w' : Writer ScriptedFile,
     AddRecord slice (Writer_new Value dest) = Returns (OK, w')) /\
  (forall w' : Writer ScriptedFile,
      AddRecord slice (Writer_new Value dest) = Returns (OK, w') ->
      let tc := InitTypeCrc Value in
      let p1 := firstn (Z.to_nat 32761) slice in
      let rest1 := skipn (Z.to_nat 32761) slice in
      let p2 := firstn (Z.to_nat 32761) rest1 in
      let p3 := skipn (Z.to_nat 32761) rest1 in
      calls (dest_ w') =
        calls dest ++ chunk_calls tc (kFirstType, p1)
          ++ chunk_calls tc (kMiddleType, p2) ++ chunk_calls tc (kLastType, p3) /\
      contents (dest_ w') =
        contents dest ++ chunk_bytes tc (kFirstType, p1)
          ++ chunk_bytes tc (kMiddleType, p2) ++ chunk_bytes tc (kLastType, p3) /\
      Z.of_nat (List.length p1) = 32761 /\
      Z.of_nat (List.length p2) = 32761 /\
      Z.of_nat (List.length p3) = 4478 /\
      block_offset_ w' = 4485) /\
  (forall (ptr : list byte) (begin : bool) (w : Writer ScriptedFile),
      cursor_ok w ->
      let left := Z.of_nat (List.length ptr) in
      let n := Z.min left (kBlockSize - switch_offset (block_offset_ w) - kHeaderSize) in
      exists (s : Status) (w1 : Writer ScriptedFile) (k : nat),
        AddRecord_body ptr left begin w =
          Returns ((s, skipn (Z.to_nat n) ptr, left - n), w1) /\
        (1 <= k <= 3)%nat /\
        calls (dest_ w1) =
          calls (dest_ w) ++ padding_calls (block_offset_ w)
            ++ firstn k (chunk_calls (type_crc_ w)
                           (fragment_type begin (left =? n), firstn (Z.to_nat n) ptr)) /\
        Z.of_nat (List.length (firstn (Z.to_nat n) ptr)) = n).
Proof.
  intros Hlen. split; [|split].
  - intros Hall. apply AddRecord_script_OK; [apply Writer_new_cursor_ok | exact Hall].
  - intros w' Hrun.
    unfold log.AddRecord in Hrun. cbn [Nat.add] in Hrun.
    (* first pass *)
    apply AddRecord_loop_OK_step in Hrun; [|apply Writer_new_cursor_ok].
    cbn [block_offset_ dest_ type_crc_ Writer_new] in Hrun.
    change (switch_dest 0 dest) with dest in Hrun.
    change (switch_offset 0) with 0 in Hrun.
    rewrite Hlen in Hrun.
    change (fragment_length 0 70000) with 32761 in Hrun.
    change (0 <? 70000 - 32761) with true in Hrun.
    change (70000 =? 32761) with false in Hrun.
    cbv beta iota zeta in Hrun.
    change (fragment_type true false) with kFirstType in Hrun.
    change (0 + kHeaderSize + 32761) with kBlockSize in Hrun.
    set (p1 := firstn (Z.to_nat 32761) slice) in *.
    set (rest1 := skipn (Z.to_nat 32761) slice) in *.
    assert (Hrest1 : Z.of_nat (List.length rest1) = 37239).
    { subst rest1. rewrite length_skipn. lia. }
    (* second pass *)
    apply AddRecord_loop_OK_step in Hrun; [|unfold cursor_ok; cbn [block_offset_]; bounds].
    cbn [block_offset_ dest_ type_crc_] in Hrun.
    change (switch_dest kBlockSize ?d) with d in Hrun.
    change (switch_offset kBlockSize) with 0 in Hrun.
    rewrite Hrest1 in Hrun.
    change (fragment_length kBlockSize 37239) with 32761 in Hrun.
    change (0 <? 37239 - 32761) with true in Hrun.
    change (37239 =? 32761) with false in Hrun.
    cbv beta iota zeta in Hrun.
    change (fragment_type false false) with kMiddleType in Hrun.
    change (0 + kHeaderSize + 32761) with kBlockSize in Hrun.
    set (p2 := firstn (Z.to_nat 32761) rest1) in *.
    set (p3 := skipn (Z.to_nat 32761) rest1) in *.
    assert (Hp3 : Z.of_nat (List.length p3) = 4478).
    { subst p3. rewrite length_skipn. lia. }
    (* third pass *)
    destruct (List.length slice) as [|fuel] eqn:Hfuel; [lia|].
    apply AddRecord_loop_OK_step in Hrun; [|unfold cursor_ok; cbn [block_offset_]; bounds].
    cbn [block_offset_ dest_ type_crc_] in Hrun.
    change (switch_dest kBlockSize ?d) with d in Hrun.
    change (switch_offset kBlockSize) with 0 in Hrun.
    rewrite Hp3 in Hrun.
    change (fragment_length kBlockSize 4478) with 4478 in Hrun.
    change (0 <? 4478 - 4478) with false in Hrun.
    change (4478 =? 4478) with true in Hrun.
    cbv beta iota zeta in Hrun.
    change (fragment_type false true) with kLastType in Hrun.
    rewrite (firstn_all2 (n := Z.to_nat 4478) p3) in Hrun by lia.
    subst w'. cbn [dest_ block_offset_ calls contents].
    rewrite <- !app_assoc.
    repeat split; try reflexivity.
    + subst p1. rewrite length_firstn. lia.
    + subst p2. rewrite length_firstn. lia.
    + exact Hp3.
  - intros ptr begin w Hw left n.
    pose proof (AddRecord_body_scripted ptr begin w Hw) as Hbody.
    cbv zeta in Hbody. fold left in Hbody.
    change (fragment_length (block_offset_ w) left) with n in Hbody.
    destruct (switch_dest_scripted (block_offset_ w) (dest_ w)) as [Hcalls _].
    pose proof (fragment_length_range (block_offset_ w) left Hw ltac:(lia)) as [Hn _].
    change (fragment_length (block_offset_ w) left) with n in Hn.
    eexists _, _, _. split; [exact Hbody|].
    split; [apply ops_done_range|].
    cbn [dest_ calls]. rewrite Hcalls, <- app_assoc.
    split; [reflexivity|].
    rewrite length_firstn. lia.
Qed.

(** ** The header *)

Lemma tag_range (t : RecordType) : 0 <= tag t <= tag kMaxRecordType.
Proof. destruct t; cbn; lia. Qed.

(** C2: for every record type and every payload of at most 65535 bytes,
    the header that [EmitPhysicalRecord] formats has seven bytes, of which
    bytes 4 and 5 read, little-endian, as the length of the payload, byte
    6 is the tag of the type, and the 32-bit word in bytes 0 to 3, read
    little-endian and unmasked, is [Extend (type_crc_[t], payload)]; and
    this header is the first thing [EmitPhysicalRecord] sends the sink. *)
Theorem EmitPhysicalRecord_header_round_trip (t : RecordType)
    (payload : list byte) (type_crc : list Z) :
  0 <= kMaskRotate <= 32 ->
  (forall (c : Z) (d : list byte), 0 <= Extend c d < 2 ^ 32) ->
  Z.of_nat (List.length payload) <= 65535 ->
  let length := Z.of_nat (List.length payload) in
  let buf := FormatHeader type_crc t payload length in
  Z.of_nat (List.length buf) = kHeaderSize /\
  header.length_of buf = length /\
  header.type_of buf = tag t /\
  header.crc_of kMaskRotate kMaskDelta buf =
    Extend (nth (Z.to_nat (tag t)) type_crc 0) payload /\
  (forall w : Writer ScriptedFile,
      type_crc_ w = type_crc ->
      0 <= block_offset_ w ->
      block_offset_ w + kHeaderSize + length <= kBlockSize ->
      exists (s : Status) (w' : Writer ScriptedFile) (more : list SinkCall),
        EmitPhysicalRecord t payload length w = Returns (s, w') /\
        calls (dest_ w') = calls (dest_ w) ++ CallAppend buf :: more).
Proof.
  intros Hrot Hext Hlen length buf.
  assert (Hfields :
            Z.of_nat (List.length buf) = kHeaderSize /\
            header.length_of buf = length /\
            header.type_of buf = tag t /\
            header.crc_of kMaskRotate kMaskDelta buf =
              Extend (nth (Z.to_nat (tag t)) type_crc 0) payload).
  { subst buf length.
    unfold log.FormatHeader, header.length_of, header.type_of, header.crc_of,
      header.byte_at, coding.DecodeFixed32, coding.EncodeFixed32.
    cbn [app nth List.length].
    rewrite Nat2Z.id, firstn_all.
    split; [reflexivity|].
    split; [apply length_bytes_decode; lia|].
    split.
    - rewrite to_char_unsigned. pose proof (tag_range t) as Ht.
      apply Z.mod_small. cbn in Ht. lia.
    - pose proof (DecodeFixed32_EncodeFixed32
                    (crc32c.Mask kMaskRotate kMaskDelta
                       (Extend (nth (Z.to_nat (tag t)) type_crc 0) payload))
                    (Mask_range _ _ _)) as Hdec.
      unfold coding.DecodeFixed32, coding.EncodeFixed32 in Hdec.
      cbn [nth] in Hdec. rewrite Hdec.
      apply Unmask_Mask; [exact Hrot | apply Hext]. }
  destruct Hfields as (H1 & H2 & H3 & H4).
  split; [exact H1|]. split; [exact H2|]. split; [exact H3|]. split; [exact H4|].
  intros w Htc Hbo Hfit.
  rewrite EmitPhysicalRecord_eq by (subst length; lia).
  rewrite emit_sink_scripted. cbn [fst snd dest_ calls].
  pose proof (ops_done_range (script (dest_ w))) as Hk.
  destruct (ops_done (script (dest_ w))) as [|k]; [lia|].
  cbn [firstn record_calls]. rewrite Htc. fold buf.
  eexists _, _, _. split; reflexivity.
Qed.

(** ** The types of the chunks of a record *)

Lemma combine_app_same_length (A B : Type) (l1 l2 : list A) (r1 r2 : list B) :
  List.length l1 = List.length r1 ->
  combine (l1 ++ l2) (r1 ++ r2) = combine l1 r1 ++ combine l2 r2.
Proof.
  revert r1. induction l1 as [|a l1 IH]; intros [|b r1] Hlen;
    cbn in *; try discriminate; [reflexivity|].
  f_equal. apply IH. lia.
Qed.

Lemma chunk_types_split (m : nat) :
  chunk_types (S m) =
  nonfinal_types true m ++ [fragment_type (Nat.eqb m 0) true].
Proof.
  destruct m as [|j]; reflexivity.
Qed.

Lemma chunk_types_length (n : nat) : List.length (chunk_types n) = n.
Proof.
  destruct n as [|[|k]]; cbn; try reflexivity.
  rewrite length_app, repeat_length. cbn. lia.
Qed.

Lemma chunk_types_emitted (n : nat) :
  Forall (fun t => t <> kZeroType /\ tag kFullType <= tag t <= tag kMaxRecordType)
         (chunk_types n).
Proof.
  assert (Hmid : forall k, Forall (fun t => t <> kZeroType /\
                             tag kFullType <= tag t <= tag kMaxRecordType)
                            (repeat kMiddleType k)).
  { induction k; cbn; constructor; [|assumption].
    split; [discriminate | cbn; lia]. }
  destruct n as [|[|k]]; cbn [chunk_types].
  - constructor.
  - constructor; [|constructor]. split; [discriminate | cbn; lia].
  - constructor; [split; [discriminate | cbn; lia]|].
    apply Forall_app. split; [apply Hmid|].
    constructor; [|constructor]. split; [discriminate | cbn; lia].
Qed.

Lemma chunk_types_last (n : nat) :
  (2 <= n)%nat -> last (chunk_types n) kZeroType = kLastType.
Proof.
  destruct n as [|[|k]]; try lia. intros _.
  change (chunk_types (S (S k))) with ((kFirstType :: repeat kMiddleType k) ++ [kLastType]).
  apply last_last.
Qed.

(** C3 (amended): [AddRecord] returns OK when the sink does not fail, and
    whenever it returns OK it has sent the sink N >= 1 chunks whose
    payloads make up the record, of types exactly Full for N = 1 (which
    is the case when the record, empty or not, fits the block behind the
    header) and exactly First, Middle N-2 times, Last for N >= 2.  The
    Zero tag is never emitted and no emitted tag is above the MaxType
    bound; the bound itself is the tag of Last, which is the tag of the
    last chunk whenever N >= 2. *)
Theorem AddRecord_chunk_types (slice : list byte) (w : Writer ScriptedFile) :
  0 <= block_offset_ w <= kBlockSize ->
  (Forall (fun s => s = OK) (script (dest_ w)) ->
   exists w' : Writer ScriptedFile, AddRecord slice w = Returns (OK, w')) /\
  (forall w' : Writer ScriptedFile,
      AddRecord slice w = Returns (OK, w') ->
      exists payloads : list (list byte),
        let N := List.length payloads in
        (1 <= N)%nat /\
        concat payloads = slice /\
        calls (dest_ w') =
          calls (dest_ w) ++ padding_calls (block_offset_ w)
            ++ flat_map (chunk_calls (type_crc_ w)) (combine (chunk_types N) payloads) /\
        List.length (chunk_types N) = N /\
        (N = 1%nat <->
         Z.of_nat (List.length slice)
           <= kBlockSize - switch_offset (block_offset_ w) - kHeaderSize) /\
        Forall (fun t => t <> kZeroType /\
                         tag kFullType <= tag t <= tag kMaxRecordType)
               (chunk_types N) /\
        tag kMaxRecordType = tag kLastType /\
        ((2 <= N)%nat -> last (chunk_types N) kZeroType = kLastType)).
Proof.
  intros Hw. split; [intros Hall; apply AddRecord_script_OK; assumption|].
  intros w' Hrun. unfold log.AddRecord in Hrun.
  apply AddRecord_loop_trace in Hrun; [|exact Hw].
  destruct Hrun as (done & cur & rest & k & Hptr & Hk & Hcalls & _
                      & _ & _ & Hoks & _ & Hhd & Hpart & _).
  destruct (Hoks eq_refl) as [-> ->]. rewrite app_nil_r in Hptr.
  exists (done ++ [cur]). cbv zeta.
  rewrite length_app. cbn [List.length]. rewrite Nat.add_1_r.
  split; [lia|].
  split; [rewrite concat_app; cbn [concat]; rewrite app_nil_r; symmetry; exact Hptr|].
  split.
  { rewrite Hcalls, chunk_types_split.
    rewrite combine_app_same_length by apply nonfinal_types_length.
    rewrite flat_map_app. cbn [combine flat_map andb is_nil].
    rewrite app_nil_r.
    replace (Nat.eqb (List.length done) 0) with (is_nil done) by (destruct done; reflexivity).
    reflexivity. }
  split; [apply chunk_types_length|].
  split.
  { unfold fragment_length in Hhd. split.
    - intros HN. assert (done = []) as -> by (destruct done; [reflexivity | discriminate]).
      cbn [hd concat app] in *. subst slice. lia.
    - intros Hfits. destruct done as [|a done]; [reflexivity|].
      specialize (Hpart eq_refl). cbn [hd] in *. lia. }
  split; [apply chunk_types_emitted|].
  split; [reflexivity|].
  apply chunk_types_last.
Qed.

(** ** Padding on the scripted sink *)

Lemma padded_scripted (w : Writer ScriptedFile) :
  calls (dest_ (padded w)) =
    calls (dest_ w) ++ [CallAppend (repeat Byte.x00 (Z.to_nat (kBlockSize - block_offset_ w)))] /\
  script (dest_ (padded w)) = tl (script (dest_ w)) /\
  contents (dest_ (padded w)) =
    (if ok (hd OK (script (dest_ w)))
     then contents (dest_ w) ++ trailer (block_offset_ w)
     else contents (dest_ w)).
Proof.
  unfold padded. cbn. repeat split; reflexivity.
Qed.

(** C5: with fewer than 7 bytes left in the block and the cursor in
    BlockSize-6 .. BlockSize-1, the pass appends that many zero bytes to
    the sink, in one call, and goes on as the pass of the writer with the
    cursor at 0: the chunk is sized for a whole block and its header is
    the next thing the sink receives.  This holds for every pass of the
    loop, first or not, so for [AddRecord] as a whole.  (With no byte
    left, the cursor at BlockSize, which is where every pass after the
    first starts, the pass goes on from the cursor at 0 without a call to
    the sink.) *)
Theorem AddRecord_pads_block_trailer (ptr : list byte) (begin : bool)
    (w : Writer ScriptedFile) :
  kBlockSize - 6 <= block_offset_ w <= kBlockSize - 1 ->
  let left := Z.of_nat (List.length ptr) in
  let n := Z.min left (kBlockSize - kHeaderSize) in
  let zeros := repeat Byte.x00 (Z.to_nat (kBlockSize - block_offset_ w)) in
  Z.of_nat (List.length zeros) = kBlockSize - block_offset_ w /\
  calls (dest_ (padded w)) = calls (dest_ w) ++ [CallAppend zeros] /\
  block_offset_ (padded w) = 0 /\
  (forall fuel : nat,
      AddRecord_loop fuel ptr left begin w =
      AddRecord_loop fuel ptr left begin (padded w)) /\
  AddRecord ptr w = AddRecord ptr (padded w) /\
  (exists (s : Status) (w1 : Writer ScriptedFile) (k : nat),
      AddRecord_body ptr left begin w =
        Returns ((s, skipn (Z.to_nat n) ptr, left - n), w1) /\
      (1 <= k <= 3)%nat /\
      calls (dest_ w1) =
        calls (dest_ w) ++ CallAppend zeros
          :: firstn k (chunk_calls (type_crc_ w)
                         (fragment_type begin (left =? n), firstn (Z.to_nat n) ptr)) /\
      block_offset_ w1 = 0 + kHeaderSize + n) /\
  (forall (fuel : nat) (w0 : Writer ScriptedFile),
      block_offset_ w0 = kBlockSize ->
      AddRecord_loop fuel ptr left begin w0 =
      AddRecord_loop fuel ptr left begin (at_next_block w0)).
Proof.
  intros Hbo left n zeros.
  destruct (padded_scripted w) as (Hcalls & _ & _).
  split; [subst zeros; rewrite repeat_length; lia|].
  split; [exact Hcalls|].
  split; [reflexivity|].
  split; [intros fuel; apply AddRecord_loop_padded; [exact Hbo | lia]|].
  split; [unfold log.AddRecord; apply AddRecord_loop_padded; [exact Hbo | lia]|].
  split; [|intros fuel w0 Hfull; apply AddRecord_loop_at_next_block; [exact Hfull | lia]].
  rewrite AddRecord_body_padded by (assumption || lia).
  assert (Hw0 : cursor_ok (padded w)) by (unfold cursor_ok, padded; cbn [block_offset_]; bounds).
  pose proof (AddRecord_body_scripted ptr begin (padded w) Hw0) as Hbody.
  cbv zeta in Hbody. fold left in Hbody.
  change (block_offset_ (padded w)) with 0 in Hbody.
  change (fragment_length 0 left) with n in Hbody.
  change (switch_dest 0 ?d) with d in Hbody.
  change (switch_offset 0) with 0 in Hbody.
  eexists _, _, _. split; [exact Hbody|].
  split; [apply ops_done_range|].
  cbn [dest_ calls block_offset_]. rewrite Hcalls, <- app_assoc.
  split; reflexivity.
Qed.

(** ** The empty record *)

(** C6: [AddRecord] of the empty payload makes one pass of the loop and
    emits one chunk, of type Full and of length 0: after the padding, if
    any, the sink receives the calls of that chunk and no other (all
    three of them when the status is OK), and the cursor ends 7 bytes
    behind the start of the chunk. *)
Theorem AddRecord_empty_payload (w : Writer ScriptedFile) :
  0 <= block_offset_ w <= kBlockSize ->
  exists (s : Status) (w' : Writer ScriptedFile) (k : nat),
    let buf := chunk_header (type_crc_ w) (kFullType, []) in
    AddRecord [] w = Returns (s, w') /\
    (1 <= k <= 3)%nat /\
    calls (dest_ w') =
      calls (dest_ w) ++ padding_calls (block_offset_ w)
        ++ firstn k [CallAppend buf; CallAppend []; CallFlush] /\
    (s = OK -> k = 3%nat) /\
    header.type_of buf = tag kFullType /\
    header.length_of buf = 0 /\
    block_offset_ w' = switch_offset (block_offset_ w) + kHeaderSize.
Proof.
  intros Hw.
  pose proof (AddRecord_body_scripted [] true w Hw) as Hbody.
  cbv zeta in Hbody. cbn [List.length Z.of_nat] in Hbody.
  pose proof (switch_offset_range (block_offset_ w) Hw) as Hsw.
  assert (Hn : fragment_length (block_offset_ w) 0 = 0).
  { unfold fragment_length. lia. }
  rewrite Hn in Hbody. cbn [Z.to_nat firstn skipn Z.eqb Z.sub Z.opp Z.add fragment_type snd] in Hbody.
  destruct (switch_dest_scripted (block_offset_ w) (dest_ w)) as [Hcalls _].
  unfold log.AddRecord. cbn [List.length Nat.add Z.of_nat].
  rewrite AddRecord_loop_S, Hbody. rewrite andb_false_r.
  eexists _, _, _. cbv zeta. split; [reflexivity|].
  split; [apply ops_done_range|].
  cbn [dest_ calls block_offset_].
  split; [rewrite Hcalls, <- app_assoc; reflexivity|].
  split.
  { intros Hs. apply ops_done_ok. rewrite Hs. reflexivity. }
  unfold header.type_of, header.length_of, header.byte_at, chunk.header,
    log.FormatHeader, coding.EncodeFixed32.
  cbn [fst snd app nth List.length Z.of_nat].
  rewrite !to_char_unsigned.
  repeat split; try reflexivity. lia.
Qed.

(** ** Errors of the sink *)

(** C10: in [EmitPhysicalRecord] the payload is appended only when the
    append of the header succeeded and the flush is requested only when
    both appends succeeded; the status returned is the first that is not
    OK (the status of the flush when both appends succeeded), no sink
    operation follows it, and block_offset advances by 7 + length in
    every case. *)
Theorem EmitPhysicalRecord_sink_operations (t : RecordType) (ptr : list byte)
    (length : Z) (w : Writer ScriptedFile) :
  0 <= length <= 0xffff ->
  0 <= block_offset_ w ->
  block_offset_ w + kHeaderSize + length <= kBlockSize ->
  let buf := FormatHeader (type_crc_ w) t ptr length in
  let payload := firstn (Z.to_nat length) ptr in
  let s1 := nth 0 (script (dest_ w)) OK in
  let s2 := nth 1 (script (dest_ w)) OK in
  let s3 := nth 2 (script (dest_ w)) OK in
  exists (s : Status) (w' : Writer ScriptedFile),
    EmitPhysicalRecord t ptr length w = Returns (s, w') /\
    block_offset_ w' = block_offset_ w + kHeaderSize + length /\
    match s1, s2 with
    | IOError _, _ =>
        s = s1 /\
        calls (dest_ w') = calls (dest_ w) ++ [CallAppend buf] /\
        contents (dest_ w') = contents (dest_ w) /\
        script (dest_ w') = skipn 1 (script (dest_ w))
    | OK, IOError _ =>
        s = s2 /\
        calls (dest_ w') = calls (dest_ w) ++ [CallAppend buf; CallAppend payload] /\
        contents (dest_ w') = contents (dest_ w) ++ buf /\
        script (dest_ w') = skipn 2 (script (dest_ w))
    | OK, OK =>
        s = s3 /\
        calls (dest_ w') =
          calls (dest_ w) ++ [CallAppend buf; CallAppend payload; CallFlush] /\
        contents (dest_ w') = contents (dest_ w) ++ buf ++ payload /\
        script (dest_ w') = skipn 3 (script (dest_ w))
    end.
Proof.
  intros Hlen Hbo Hfit buf payload s1 s2 s3.
  rewrite EmitPhysicalRecord_eq by assumption.
  fold buf payload. rewrite emit_sink_scripted. cbn [fst snd].
  eexists _, _. split; [reflexivity|].
  cbn [block_offset_ dest_ calls contents script].
  split; [reflexivity|].
  unfold ops_done. subst s1 s2 s3.
  destruct (nth 0 (script (dest_ w)) OK) as [|e1] eqn:E1; cbn [ok].
  - destruct (nth 1 (script (dest_ w)) OK) as [|e2] eqn:E2;
      cbn [ok Nat.sub firstn accepted record_calls].
    + repeat split; reflexivity.
    + repeat split; try reflexivity. exact E2.
  - cbn [Nat.sub firstn accepted record_calls].
    rewrite app_nil_r. repeat split; try reflexivity. exact E1.
Qed.

(** C7: when [AddRecord] returns an error, the sink has received the
    whole of every chunk before the failing one, then the calls of the
    failing chunk up to the one that failed, and nothing after it; the
    error returned is the status the sink gave to that last call; the
    bytes of the chunks emitted before are in the sink behind what it
    held.  In the loop, a pass whose chunk returns an error is the last:
    the loop returns that error and the writer of that pass. *)
Theorem AddRecord_stops_at_first_error (slice : list byte)
    (w w' : Writer ScriptedFile) (msg : string) :
  0 <= block_offset_ w <= kBlockSize ->
  AddRecord slice w = Returns (IOError msg, w') ->
  (exists (done : list (list byte)) (cur rest : list byte) (k : nat),
      let tc := type_crc_ w in
      let bo := block_offset_ w in
      let before := combine (nonfinal_types true (List.length done)) done in
      let c := (fragment_type (is_nil done) (is_nil rest), cur) in
      let ops := (List.length (padding_calls bo) + 3 * List.length done + k)%nat in
      slice = concat done ++ cur ++ rest /\
      (1 <= k <= 3)%nat /\
      calls (dest_ w') =
        calls (dest_ w) ++ padding_calls bo
          ++ flat_map (chunk_calls tc) before ++ firstn k (chunk_calls tc c) /\
      contents (dest_ w') =
        contents (switch_dest bo (dest_ w))
          ++ flat_map (chunk_bytes tc) before ++ accepted k (chunk_header tc c) cur /\
      (exists pad : list byte,
          contents (switch_dest bo (dest_ w)) = contents (dest_ w) ++ pad) /\
      nth (ops - 1) (script (dest_ w)) OK = IOError msg /\
      script (dest_ w') = skipn ops (script (dest_ w))) /\
  (forall (fuel : nat) (ptr ptr' : list byte) (left left' : Z) (begin : bool)
          (w1 w2 : Writer ScriptedFile) (e : string),
      AddRecord_body ptr left begin w1 = Returns ((IOError e, ptr', left'), w2) ->
      AddRecord_loop (S fuel) ptr left begin w1 = Returns (IOError e, w2)).
Proof.
  intros Hw Hrun. split.
  - unfold log.AddRecord in Hrun.
    apply AddRecord_loop_trace in Hrun; [|exact Hw].
    destruct Hrun as (done & cur & rest & k & Hptr & Hk & Hcalls & Hcont
                        & Hscript & Hs & _ & _ & _ & _ & _).
    exists done, cur, rest, k. cbv zeta. cbn [andb] in Hcalls, Hcont.
    split; [exact Hptr|].
    split; [exact Hk|].
    split; [exact Hcalls|].
    split; [exact Hcont|].
    split.
    { unfold switch_dest.
      destruct ((0 <? kBlockSize - block_offset_ w)
                && (kBlockSize - block_offset_ w <? kHeaderSize)).
      - cbn. destruct (ok (hd OK (script (dest_ w)))).
        + eexists. reflexivity.
        + exists []. symmetry. apply app_nil_r.
      - exists []. symmetry. apply app_nil_r. }
    split; [symmetry; exact Hs | exact Hscript].
  - intros fuel ptr ptr' left left' begin w1 w2 e Hbody.
    rewrite AddRecord_loop_S, Hbody. reflexivity.
Qed.

(** C9: when the append of the padding fails, [AddRecord] takes no notice
    of the error: its outcome, status included, is that of the writer with
    the cursor at 0 on the sink as the failed call left it, whatever the
    error.  When nothing else fails it returns OK, although the sink holds
    the chunks of the record right behind what it held, without the
    padding. *)
Theorem AddRecord_discards_padding_error (slice : list byte)
    (w : Writer ScriptedFile) (msg : string) (sc : list Status) :
  kBlockSize - 6 <= block_offset_ w <= kBlockSize - 1 ->
  script (dest_ w) = IOError msg :: sc ->
  let w0 := {| dest_ := {| contents := contents (dest_ w);
                           calls := calls (dest_ w) ++ [CallAppend (trailer (block_offset_ w))];
                           script := sc |};
               block_offset_ := 0;
               type_crc_ := type_crc_ w |} in
  AddRecord slice w = AddRecord slice w0 /\
  (Forall (fun s => s = OK) sc ->
   exists (w' : Writer ScriptedFile) (payloads : list (list byte)),
     AddRecord slice w = Returns (OK, w') /\
     concat payloads = slice /\
     contents (dest_ w') =
       contents (dest_ w)
         ++ flat_map (chunk_bytes (type_crc_ w))
              (combine (chunk_types (List.length payloads)) payloads) /\
     calls (dest_ w') =
       calls (dest_ w) ++ CallAppend (trailer (block_offset_ w))
         :: flat_map (chunk_calls (type_crc_ w))
              (combine (chunk_types (List.length payloads)) payloads)).
Proof.
  intros Hbo Hsc w0.
  assert (Hpad : padded w = w0).
  { unfold padded, w0. cbn. unfold ScriptedFile_Append. rewrite Hsc. reflexivity. }
  assert (Heq : AddRecord slice w = AddRecord slice w0).
  { rewrite <- Hpad. unfold log.AddRecord. apply AddRecord_loop_padded; [exact Hbo | lia]. }
  split; [exact Heq|].
  intros Hall.
  assert (Hw0 : cursor_ok w0) by (unfold cursor_ok, w0; cbn [block_offset_]; bounds).
  destruct (AddRecord_returns Extend kMaskRotate kMaskDelta slice w0 Hw0)
    as (s & w' & Hrun & _ & _).
  pose proof Hrun as Htrace. unfold log.AddRecord in Htrace.
  apply AddRecord_loop_trace in Htrace; [|exact Hw0].
  destruct Htrace as (done & cur & rest & k & Hptr & Hk & Hcalls & Hcont
                        & _ & Hs & Hoks & _ & _ & _ & _).
  subst w0.
  cbn [dest_ script block_offset_ type_crc_ calls contents] in *.
  rewrite nth_all_OK in Hs by exact Hall. subst s.
  destruct (Hoks eq_refl) as [-> ->]. rewrite app_nil_r in Hptr.
  change (padding_calls 0) with (@nil SinkCall) in Hcalls.
  change (switch_dest 0 ?d) with d in Hcont.
  cbn [app contents andb] in Hcalls, Hcont.
  assert (Hchunks :
            combine (chunk_types (List.length (done ++ [cur]))) (done ++ [cur]) =
            combine (nonfinal_types true (List.length done)) done
              ++ [(fragment_type (is_nil done) true, cur)]).
  { rewrite length_app. cbn [List.length]. rewrite Nat.add_1_r.
    rewrite chunk_types_split.
    rewrite combine_app_same_length by apply nonfinal_types_length.
    cbn [combine].
    replace (Nat.eqb (List.length done) 0) with (is_nil done) by (destruct done; reflexivity).
    reflexivity. }
  exists w', (done ++ [cur]).
  split; [rewrite Heq; exact Hrun|].
  split; [rewrite concat_app; cbn [concat]; rewrite app_nil_r; symmetry; exact Hptr|].
  rewrite Hchunks, !flat_map_app. cbn [flat_map]. rewrite !app_nil_r.
  split.
  - rewrite Hcont. reflexivity.
  - rewrite Hcalls, <- app_assoc. reflexivity.
Qed.


(** ** The sizes of the chunks of a record *)

(** A run of the loop that returns OK, with the sizes of its chunks: the
    chunks [done] that are not the last of the record end each at the
    end of its block, and the last one, [cur], fits its block. *)
Lemma AddRecord_loop_sizes (fuel : nat) :
  forall (ptr : list byte) (begin : bool) (w w' : Writer ScriptedFile),
    cursor_ok w ->
    AddRecord_loop fuel ptr (Z.of_nat (List.length ptr)) begin w = Returns (OK, w') ->
    exists (done : list (list byte)) (cur : list byte),
      let tc := type_crc_ w in
      let bo := block_offset_ w in
      let avail := kBlockSize - switch_offset bo - kHeaderSize in
      let before := combine (nonfinal_types begin (List.length done)) done in
      let c := (fragment_type (begin && is_nil done) true, cur) in
      ptr = concat done ++ cur /\
      calls (dest_ w') =
        calls (dest_ w) ++ padding_calls bo
          ++ flat_map (chunk_calls tc) before ++ chunk_calls tc c /\
      contents (dest_ w') =
        contents (switch_dest bo (dest_ w))
          ++ flat_map (chunk_bytes tc) before ++ chunk_bytes tc c /\
      Forall (fun p => Z.of_nat (List.length p) = kBlockSize - kHeaderSize) (tl done) /\
      (is_nil done = false ->
       Z.of_nat (List.length (hd [] done)) = avail /\ 0 < Z.of_nat (List.length cur)) /\
      (is_nil done = true -> Z.of_nat (List.length cur) <= avail) /\
      Z.of_nat (List.length cur) <= kBlockSize - kHeaderSize /\
      block_offset_ w' =
        (if is_nil done then switch_offset bo else 0) + kHeaderSize
        + Z.of_nat (List.length cur).
Proof.
  induction fuel as [|fuel IH]; intros ptr begin w w' Hw Hrun.
  - discriminate Hrun.
  - apply AddRecord_loop_OK_step in Hrun; [|exact Hw].
    cbv zeta in Hrun.
    pose proof (fragment_length_range (block_offset_ w) (Z.of_nat (List.length ptr)) Hw
                  ltac:(lia)) as [Hn Hfit].
    pose proof (switch_offset_range (block_offset_ w) Hw) as Hsw.
    destruct (switch_dest_scripted (block_offset_ w) (dest_ w)) as [Hswc _].
    set (left := Z.of_nat (List.length ptr)) in *.
    set (n := fragment_length (block_offset_ w) left) in *.
    assert (Hlen : Z.of_nat (List.length (firstn (Z.to_nat n) ptr)) = n).
    { rewrite length_firstn. lia. }
    destruct (0 <? left - n) eqn:Hmore.
    + apply Z.ltb_lt in Hmore.
      pose proof (fragment_length_partial (block_offset_ w) left Hmore) as Hend.
      fold n in Hend.
      assert (Hne : (left =? n) = false) by (apply Z.eqb_neq; lia).
      rewrite Hne in Hrun.
      apply IH in Hrun; [|unfold cursor_ok; cbn [block_offset_]; bounds].
      cbn [block_offset_ dest_ type_crc_ calls contents] in Hrun.
      destruct Hrun as (done & cur & Hptr & Hcalls & Hcont & Hmid & Hfirst
                          & Hlast & Hcur & Hbo).
      rewrite Hend in Hcalls, Hcont, Hfirst, Hlast, Hbo.
      rewrite padding_calls_end_of_block in Hcalls.
      rewrite nonfinal_types_false in Hcalls, Hcont.
      change (switch_dest kBlockSize ?d) with d in Hcont.
      change (switch_offset kBlockSize) with 0 in Hfirst, Hlast, Hbo.
      cbn [andb app contents] in Hcalls, Hcont.
      exists (firstn (Z.to_nat n) ptr :: done), cur.
      cbn [List.length is_nil andb concat hd tl nonfinal_types combine flat_map].
      rewrite andb_false_r.
      split; [rewrite <- app_assoc, <- Hptr; symmetry; apply firstn_skipn|].
      split; [rewrite Hcalls, Hswc, <- !app_assoc; reflexivity|].
      split; [rewrite Hcont, <- !app_assoc; reflexivity|].
      split.
      { destruct done as [|d0 done]; [constructor|].
        constructor; [|exact Hmid].
        destruct (Hfirst eq_refl) as [Hd0 _]. cbn [hd] in Hd0. lia. }
      split.
      { intros _. split; [lia|].
        destruct done as [|d0 done].
        - cbn [concat app] in Hptr. rewrite <- Hptr, length_skipn. lia.
        - apply (Hfirst eq_refl). }
      split; [discriminate|].
      split; [exact Hcur|].
      rewrite Hbo. destruct done; reflexivity.
    + apply Z.ltb_ge in Hmore.
      assert (Hall : n = left) by lia.
      assert (Heq : (left =? n) = true) by (apply Z.eqb_eq; lia).
      rewrite Heq in Hrun.
      assert (Hwhole : firstn (Z.to_nat n) ptr = ptr).
      { apply firstn_all2. lia. }
      rewrite Hwhole in Hrun, Hlen.
      exists [], ptr. subst w'.
      cbn [List.length is_nil andb concat hd tl nonfinal_types combine flat_map
           app dest_ block_offset_ calls contents].
      rewrite andb_true_r.
      split; [reflexivity|].
      split; [rewrite Hswc, <- app_assoc; reflexivity|].
      split; [reflexivity|].
      split; [constructor|].
      split; [discriminate|].
      split; [intros _; unfold fragment_length in n; lia|].
      split; [bounds|].
      rewrite Hlen, Hall. reflexivity.
Qed.

Lemma chunk_types_done_cur (tc : list Z) (done : list (list byte)) (cur : list byte) :
  combine (chunk_types (S (List.length done))) (done ++ [cur]) =
  combine (nonfinal_types true (List.length done)) done
    ++ [(fragment_type (is_nil done) true, cur)].
Proof.
  rewrite chunk_types_split.
  rewrite combine_app_same_length by apply nonfinal_types_length.
  cbn [combine].
  replace (Nat.eqb (List.length done) 0) with (is_nil done) by (destruct done; reflexivity).
  reflexivity.
Qed.

(** X3: when [AddRecord] returns OK, every chunk of the record but the
    last carries all the bytes its block has room for behind the header:
    the first what is left of the current block, the others
    BlockSize - 7 = 32761 bytes; the last chunk carries at least one byte
    and at most 32761.  A record of one chunk is one that fits the
    current block. *)
Theorem AddRecord_chunk_sizes (slice : list byte) (w w' : Writer ScriptedFile) :
  0 <= block_offset_ w <= kBlockSize ->
  AddRecord slice w = Returns (OK, w') ->
  exists (done : list (list byte)) (cur : list byte),
    let avail := kBlockSize - switch_offset (block_offset_ w) - kHeaderSize in
    slice = concat done ++ cur /\
    calls (dest_ w') =
      calls (dest_ w) ++ padding_calls (block_offset_ w)
        ++ flat_map (chunk_calls (type_crc_ w))
             (combine (chunk_types (S (List.length done))) (done ++ [cur])) /\
    Forall (fun p => Z.of_nat (List.length p) = kBlockSize - kHeaderSize) (tl done) /\
    (done <> [] ->
     Z.of_nat (List.length (hd [] done)) = avail /\
     0 < Z.of_nat (List.length cur) <= kBlockSize - kHeaderSize) /\
    (done = [] -> Z.of_nat (List.length slice) <= avail).
Proof.
  intros Hw Hrun. unfold log.AddRecord in Hrun.
  apply AddRecord_loop_sizes in Hrun; [|exact Hw].
  destruct Hrun as (done & cur & Hptr & Hcalls & _ & Hmid & Hfirst & Hlast & Hcur & _).
  exists done, cur. cbv zeta. cbn [andb] in Hcalls.
  split; [exact Hptr|].
  split.
  { rewrite Hcalls, chunk_types_done_cur, flat_map_app by exact (type_crc_ w).
    cbn [flat_map]. rewrite app_nil_r. reflexivity. }
  split; [exact Hmid|].
  split.
  - intros Hne. destruct done as [|d0 done]; [congruence|].
    destruct (Hfirst eq_refl) as [Hd0 Hpos]. split; [exact Hd0 | lia].
  - intros ->. cbn [concat app] in Hptr. subst slice. apply (Hlast eq_refl).
Qed.

(** ** The growth of the stream *)

Lemma chunk_header_length (tc : list Z) (c : RecordType * list byte) :
  Z.of_nat (List.length (chunk_header tc c)) = kHeaderSize.
Proof. reflexivity. Qed.

Lemma chunk_bytes_length (tc : list Z) (c : RecordType * list byte) :
  Z.of_nat (List.length (chunk_bytes tc c)) =
  kHeaderSize + Z.of_nat (List.length (snd c)).
Proof.
  unfold chunk.bytes. rewrite length_app, Nat2Z.inj_add.
  rewrite chunk_header_length. reflexivity.
Qed.

Lemma flat_map_chunk_bytes_length (tc : list Z) (ts : list RecordType) :
  forall ps : list (list byte),
    List.length ts = List.length ps ->
    Z.of_nat (List.length (flat_map (chunk_bytes tc) (combine ts ps))) =
    kHeaderSize * Z.of_nat (List.length ps) + Z.of_nat (List.length (concat ps)).
Proof.
  induction ts as [|t ts IH]; intros [|p ps] Hlen; try discriminate Hlen.
  - cbn. lia.
  - cbn [combine flat_map concat List.length].
    rewrite !length_app, !Nat2Z.inj_add, chunk_bytes_length, IH by (cbn in Hlen; lia).
    rewrite !Nat2Z.inj_succ. cbn [snd]. lia.
Qed.

Lemma flat_map_chunk_calls_length (tc : list Z) (ts : list RecordType) :
  forall ps : list (list byte),
    List.length ts = List.length ps ->
    Z.of_nat (List.length (flat_map (chunk_calls tc) (combine ts ps))) =
    3 * Z.of_nat (List.length ps).
Proof.
  induction ts as [|t ts IH]; intros [|p ps] Hlen; try discriminate Hlen.
  - reflexivity.
  - cbn [combine flat_map List.length].
    rewrite !length_app, !Nat2Z.inj_add, IH by (cbn in Hlen; lia).
    change (List.length (chunk_calls tc (t, p))) with 3%nat.
    rewrite !Nat2Z.inj_succ. lia.
Qed.

Lemma length_concat_uniform (c : Z) (l : list (list byte)) :
  Forall (fun p => Z.of_nat (List.length p) = c) l ->
  Z.of_nat (List.length (concat l)) = c * Z.of_nat (List.length l).
Proof.
  induction 1 as [|p l Hp _ IH]; cbn [concat List.length].
  - lia.
  - rewrite length_app, Nat2Z.inj_add, IH, Nat2Z.inj_succ. lia.
Qed.

(** The bytes of the chunks that are not the last: what is left of the
    first block and whole blocks. *)
Lemma length_concat_done (avail : Z) (done : list (list byte)) :
  done <> [] ->
  Z.of_nat (List.length (hd [] done)) = avail ->
  Forall (fun p => Z.of_nat (List.length p) = kBlockSize - kHeaderSize) (tl done) ->
  Z.of_nat (List.length (concat done)) =
  avail + (kBlockSize - kHeaderSize) * (Z.of_nat (List.length done) - 1).
Proof.
  destruct done as [|d0 done]; [congruence|]. intros _ Hd0 Hmid.
  cbn [hd tl concat List.length] in *.
  rewrite length_app, Nat2Z.inj_add, (length_concat_uniform _ _ Hmid), Nat2Z.inj_succ.
  lia.
Qed.

(** On a sink that does not fail the padding is in the sink. *)
Lemma switch_dest_contents_OK (bo : Z) (d : ScriptedFile) :
  Forall (fun s => s = OK) (script d) ->
  contents (switch_dest bo d) = contents d ++ padding_bytes bo.
Proof.
  intros Hall. unfold switch_dest, padding_bytes.
  destruct ((0 <? kBlockSize - bo) && (kBlockSize - bo <? kHeaderSize)).
  - cbn. replace (hd OK (script d)) with OK; [reflexivity|].
    destruct Hall; cbn; congruence.
  - symmetry. apply app_nil_r.
Qed.

Lemma padding_bytes_calls_length (bo : Z) :
  0 <= bo <= kBlockSize ->
  Z.of_nat (List.length (padding_bytes bo)) = switch_offset bo + kBlockSize - bo
  \/ (Z.of_nat (List.length (padding_bytes bo)) = 0 /\ switch_offset bo = bo).
Proof.
  intros Hbo. unfold padding_bytes, switch_offset, trailer.
  destruct (Z.ltb_spec 0 (kBlockSize - bo));
    destruct (Z.ltb_spec (kBlockSize - bo) kHeaderSize); cbn [andb List.length];
    rewrite ?repeat_length; bounds.
Qed.

(** The chunks of a record on a sink that does not fail, with what the
    sink holds behind them. *)
Lemma AddRecord_layout (slice : list byte) (w : Writer ScriptedFile) :
  cursor_ok w ->
  Forall (fun s => s = OK) (script (dest_ w)) ->
  exists (w' : Writer ScriptedFile) (done : list (list byte)) (cur : list byte),
    let bo := block_offset_ w in
    let avail := kBlockSize - switch_offset bo - kHeaderSize in
    let chunks := combine (chunk_types (S (List.length done))) (done ++ [cur]) in
    AddRecord slice w = Returns (OK, w') /\
    slice = concat done ++ cur /\
    calls (dest_ w') =
      calls (dest_ w) ++ padding_calls bo ++ flat_map (chunk_calls (type_crc_ w)) chunks /\
    contents (dest_ w') =
      contents (dest_ w) ++ padding_bytes bo
        ++ flat_map (chunk_bytes (type_crc_ w)) chunks /\
    Forall (fun p => Z.of_nat (List.length p) = kBlockSize - kHeaderSize) (tl done) /\
    (done <> [] ->
     Z.of_nat (List.length (hd [] done)) = avail /\ 0 < Z.of_nat (List.length cur)) /\
    (done = [] -> Z.of_nat (List.length cur) <= avail) /\
    Z.of_nat (List.length cur) <= kBlockSize - kHeaderSize /\
    block_offset_ w' =
      (if is_nil done then switch_offset bo else 0) + kHeaderSize
      + Z.of_nat (List.length cur).
Proof.
  intros Hw Hall.
  destruct (AddRecord_script_OK slice w Hw Hall) as [w' Hrun].
  pose proof Hrun as Hsizes. unfold log.AddRecord in Hsizes.
  apply AddRecord_loop_sizes in Hsizes; [|exact Hw].
  destruct Hsizes as (done & cur & Hptr & Hcalls & Hcont & Hmid & Hfirst & Hlast
                        & Hcur & Hbo).
  exists w', done, cur. cbv zeta. cbn [andb] in Hcalls, Hcont.
  rewrite chunk_types_done_cur, !flat_map_app by exact (type_crc_ w).
  cbn [flat_map]. rewrite !app_nil_r.
  split; [exact Hrun|].
  split; [exact Hptr|].
  split; [exact Hcalls|].
  split; [rewrite Hcont, switch_dest_contents_OK, <- app_assoc by exact Hall; reflexivity|].
  split; [exact Hmid|].
  split; [intros Hne; apply Hfirst; destruct done; [congruence | reflexivity]|].
  split; [intros ->; apply Hlast; reflexivity|].
  split; [exact Hcur | exact Hbo].
Qed.

Lemma chunk_types_length_done (done : list (list byte)) (cur : list byte) :
  List.length (chunk_types (S (List.length done))) = List.length (done ++ [cur]).
Proof.
  rewrite chunk_types_length, length_app. cbn [List.length]. lia.
Qed.

(** X4: on a sink that does not fail, a record of L bytes written from
    cursor [bo] takes N chunks, where N is 1 when L fits the block behind
    the header and else 1 plus the number of blocks of BlockSize - 7
    bytes the bytes beyond the current block take up: the sink receives
    the padding call, if any, and 3 N calls, it grows by the padding, 7 N
    bytes of headers and the L bytes of the record, and the cursor ends
    at [cursor_after bo L]. *)
Theorem AddRecord_stream_growth (slice : list byte) (w : Writer ScriptedFile) :
  0 <= block_offset_ w <= kBlockSize ->
  Forall (fun s => s = OK) (script (dest_ w)) ->
  let L := Z.of_nat (List.length slice) in
  let bo := block_offset_ w in
  let N := chunk_count bo L in
  exists w' : Writer ScriptedFile,
    AddRecord slice w = Returns (OK, w') /\
    Z.of_nat (List.length (calls (dest_ w'))) =
      Z.of_nat (List.length (calls (dest_ w)))
      + Z.of_nat (List.length (padding_calls bo)) + 3 * N /\
    Z.of_nat (List.length (contents (dest_ w'))) =
      Z.of_nat (List.length (contents (dest_ w)))
      + Z.of_nat (List.length (padding_bytes bo)) + kHeaderSize * N + L /\
    block_offset_ w' = cursor_after bo L.
Proof.
  intros Hw Hall L bo N.
  destruct (AddRecord_layout slice w Hw Hall)
    as (w' & done & cur & Hrun & Hptr & Hcalls & Hcont & Hmid & Hfirst & Hlast
          & Hcur & Hbo).
  cbv zeta in *. fold bo in Hcalls, Hcont, Hfirst, Hlast, Hbo.
  pose proof (switch_offset_range bo Hw) as Hsw.
  assert (HL : L = Z.of_nat (List.length (concat done)) + Z.of_nat (List.length cur)).
  { subst L. rewrite Hptr, length_app. lia. }
  assert (HN : N = 1 + Z.of_nat (List.length done) /\
               block_offset_ w' = cursor_after bo L).
  { subst N. unfold chunk_count, cursor_after. rewrite Hbo.
    destruct done as [|d0 done].
    - cbn [concat List.length is_nil] in *. specialize (Hlast eq_refl).
      destruct (Z.leb_spec L (kBlockSize - switch_offset bo - kHeaderSize)); [|lia].
      split; [reflexivity | lia].
    - assert (Hne : d0 :: done <> []) by (intro E; discriminate E).
      destruct (Hfirst Hne) as [Hd0 Hpos].
      rewrite (length_concat_done _ _ Hne Hd0 Hmid) in HL.
      cbn [is_nil]. set (m := Z.of_nat (List.length (d0 :: done))) in *.
      assert (Hm : 1 <= m) by (subst m; cbn [List.length]; lia).
      set (c := Z.of_nat (List.length cur)) in *.
      set (a := kBlockSize - switch_offset bo - kHeaderSize) in *.
      destruct (Z.leb_spec L a); [unfold kBlockSize, kHeaderSize in *; lia|].
      assert (Hdiv : (L - a + (kBlockSize - kHeaderSize - 1)) / (kBlockSize - kHeaderSize) = m).
      { symmetry. apply (Z.div_unique _ _ m (c - 1)); bounds. }
      assert (Hmod : (L - a - 1) mod (kBlockSize - kHeaderSize) = c - 1).
      { symmetry. apply (Z.mod_unique _ _ (m - 1) (c - 1)); bounds. }
      rewrite Hdiv, Hmod. split; lia. }
  destruct HN as [HN Hcursor].
  exists w'. split; [exact Hrun|].
  split.
  { rewrite Hcalls, !length_app, !Nat2Z.inj_add.
    rewrite flat_map_chunk_calls_length by apply chunk_types_length_done.
    rewrite length_app, Nat2Z.inj_add. cbn [List.length]. lia. }
  split; [|exact Hcursor].
  rewrite Hcont, !length_app, !Nat2Z.inj_add.
  rewrite flat_map_chunk_bytes_length by apply chunk_types_length_done.
  rewrite concat_app, !length_app, !Nat2Z.inj_add. cbn [concat List.length].
  rewrite app_nil_r. lia.
Qed.

(** ** Chunks and blocks *)

Lemma mod_block_unique (pos r q : Z) :
  pos = r + q * kBlockSize -> 0 <= r < kBlockSize -> pos mod kBlockSize = r.
Proof.
  intros -> Hr. rewrite Z.mod_add by (unfold kBlockSize; lia).
  apply Z.mod_small. exact Hr.
Qed.

Lemma mod_block_eq (a b q : Z) :
  a = b + q * kBlockSize -> a mod kBlockSize = b mod kBlockSize.
Proof.
  intros ->. apply Z.mod_add. unfold kBlockSize. lia.
Qed.

(** Whole blocks and a last chunk, from the start of a block. *)
Lemma within_blocks_full (cur : list byte) (ps : list (list byte)) :
  forall pos : Z,
    pos mod kBlockSize = 0 ->
    Forall (fun p => Z.of_nat (List.length p) = kBlockSize - kHeaderSize) ps ->
    Z.of_nat (List.length cur) <= kBlockSize - kHeaderSize ->
    within_blocks pos (ps ++ [cur]).
Proof.
  induction ps as [|p ps IH]; intros pos Hpos Hps Hcur; cbn [app within_blocks].
  - split; [lia | exact I].
  - inversion Hps as [|p' ps' Hp Hrest]; subst.
    split; [lia|].
    apply IH; [|exact Hrest | exact Hcur].
    rewrite Hp.
    replace (pos + kHeaderSize + (kBlockSize - kHeaderSize)) with (pos + 1 * kBlockSize) by lia.
    rewrite Z.mod_add by (unfold kBlockSize; lia). exact Hpos.
Qed.

(** Where the first chunk of a record starts: at the cursor, or at the
    start of the next block when the pass switches to it. *)
Lemma first_chunk_position (w : Writer ScriptedFile) :
  cursor_ok w ->
  aligned w ->
  (Z.of_nat (List.length (contents (dest_ w)))
   + Z.of_nat (List.length (padding_bytes (block_offset_ w)))) mod kBlockSize =
  switch_offset (block_offset_ w).
Proof.
  intros Hw Hal. unfold aligned in Hal.
  pose proof (switch_offset_range _ Hw) as Hsw.
  set (len := Z.of_nat (List.length (contents (dest_ w)))) in *.
  set (bo := block_offset_ w) in *.
  pose proof (Z.div_mod len kBlockSize ltac:(unfold kBlockSize; lia)) as Hdm.
  destruct (padding_bytes_calls_length bo Hw) as [Hpad | [Hpad Hsame]].
  - (* the pass pads, or the block is full *)
    destruct (Z.eq_dec bo kBlockSize) as [Hfull | Hnot].
    + rewrite Hfull, Z.mod_same in Hal by (unfold kBlockSize; lia).
      apply (mod_block_unique _ _ (len / kBlockSize)); [|bounds].
      rewrite Hpad, Hfull. change (switch_offset kBlockSize) with 0. lia.
    + rewrite (Z.mod_small bo) in Hal by (unfold cursor_ok in Hw; lia).
      apply (mod_block_unique _ _ (len / kBlockSize + 1)); [|bounds].
      rewrite Hpad. lia.
  - rewrite Hpad, Hsame. rewrite Hsame in Hsw.
    rewrite (Z.mod_small bo) in Hal by bounds.
    rewrite Z.add_0_r. exact Hal.
Qed.

(** X5: on a sink that does not fail and whose length agrees with the
    cursor, no chunk of a record crosses a block boundary: each chunk,
    header and payload, lies within one block of BlockSize bytes of the
    stream; and the cursor agrees with the sink again when [AddRecord]
    has returned. *)
Theorem AddRecord_chunks_within_blocks (slice : list byte)
    (w : Writer ScriptedFile) :
  0 <= block_offset_ w <= kBlockSize ->
  Forall (fun s => s = OK) (script (dest_ w)) ->
  aligned w ->
  exists (w' : Writer ScriptedFile) (payloads : list (list byte)),
    let bo := block_offset_ w in
    let start := Z.of_nat (List.length (contents (dest_ w)))
                 + Z.of_nat (List.length (padding_bytes bo)) in
    AddRecord slice w = Returns (OK, w') /\
    concat payloads = slice /\
    contents (dest_ w') =
      contents (dest_ w) ++ padding_bytes bo
        ++ flat_map (chunk_bytes (type_crc_ w))
             (combine (chunk_types (List.length payloads)) payloads) /\
    start mod kBlockSize = switch_offset bo /\
    within_blocks start payloads /\
    aligned w'.
Proof.
  intros Hw Hall Hal.
  destruct (AddRecord_layout slice w Hw Hall)
    as (w' & done & cur & Hrun & Hptr & _ & Hcont & Hmid & Hfirst & Hlast
          & Hcur & Hbo).
  cbv zeta in *.
  pose proof (switch_offset_range _ Hw) as Hsw.
  pose proof (first_chunk_position w Hw Hal) as Hstart.
  set (bo := block_offset_ w) in *.
  set (start := Z.of_nat (List.length (contents (dest_ w)))
                + Z.of_nat (List.length (padding_bytes bo))) in *.
  exists w', (done ++ [cur]).
  assert (HN : List.length (done ++ [cur]) = S (List.length done))
    by (rewrite length_app; cbn [List.length]; lia).
  rewrite HN.
  split; [exact Hrun|].
  split; [rewrite concat_app; cbn [concat]; rewrite app_nil_r; symmetry; exact Hptr|].
  split; [exact Hcont|].
  split; [exact Hstart|].
  pose proof (Z.div_mod start kBlockSize ltac:(unfold kBlockSize; lia)) as Hdm.
  rewrite Hstart in Hdm.
  split.
  - destruct done as [|d0 done].
    + cbn [app within_blocks]. specialize (Hlast eq_refl). split; [lia | exact I].
    + assert (Hne : d0 :: done <> []) by (intro E; discriminate E).
      destruct (Hfirst Hne) as [Hd0 _]. cbn [hd tl] in Hd0, Hmid.
      cbn [app within_blocks]. split; [lia|].
      apply within_blocks_full; [|exact Hmid | exact Hcur].
      apply (mod_block_unique _ _ (start / kBlockSize + 1)); [lia | bounds].
  - unfold aligned. rewrite Hcont, !length_app, !Nat2Z.inj_add.
    rewrite flat_map_chunk_bytes_length by apply chunk_types_length_done.
    rewrite concat_app, !length_app, !Nat2Z.inj_add. cbn [concat List.length].
    rewrite app_nil_r, Hbo. fold start.
    destruct done as [|d0 done].
    + cbn [concat List.length is_nil].
      apply (mod_block_eq _ _ (start / kBlockSize)). bounds.
    + assert (Hne : d0 :: done <> []) by (intro E; discriminate E).
      destruct (Hfirst Hne) as [Hd0 _].
      rewrite (length_concat_done _ _ Hne Hd0 Hmid). cbn [is_nil].
      apply (mod_block_eq _ _ (start / kBlockSize
                               + Z.of_nat (List.length (d0 :: done)))).
      bounds.
Qed.

(** ** Seven bytes left in the block *)

(** X6: with exactly 7 bytes left in the block, a record that is not
    empty starts with a First chunk that carries no byte and fills the
    block with its header; the bytes of the record follow from the start
    of the next block, in Middle chunks of 32761 bytes and a Last chunk
    that is not empty. *)
Theorem AddRecord_zero_length_First (slice : list byte)
    (w w' : Writer ScriptedFile) :
  block_offset_ w = kBlockSize - kHeaderSize ->
  slice <> [] ->
  AddRecord slice w = Returns (OK, w') ->
  exists (done : list (list byte)) (cur : list byte),
    slice = concat done ++ cur /\
    calls (dest_ w') =
      calls (dest_ w) ++ chunk_calls (type_crc_ w) (kFirstType, [])
        ++ flat_map (chunk_calls (type_crc_ w))
             (combine (repeat kMiddleType (List.length done)) done)
        ++ chunk_calls (type_crc_ w) (kLastType, cur) /\
    Forall (fun p => Z.of_nat (List.length p) = kBlockSize - kHeaderSize) done /\
    0 < Z.of_nat (List.length cur) <= kBlockSize - kHeaderSize.
Proof.
  intros Hbo Hne Hrun. unfold log.AddRecord in Hrun.
  apply AddRecord_loop_sizes in Hrun; [|unfold cursor_ok; rewrite Hbo; bounds].
  destruct Hrun as (done0 & cur & Hptr & Hcalls & _ & Hmid & Hfirst & Hlast & Hcur & _).
  rewrite Hbo in Hcalls, Hfirst, Hlast.
  change (padding_calls (kBlockSize - kHeaderSize)) with (@nil SinkCall) in Hcalls.
  change (kBlockSize - switch_offset (kBlockSize - kHeaderSize) - kHeaderSize)
    with 0 in Hfirst, Hlast.
  destruct done0 as [|d0 done].
  - exfalso. specialize (Hlast eq_refl). cbn [concat app] in Hptr.
    destruct cur; [congruence | cbn [List.length] in Hlast; lia].
  - destruct (Hfirst eq_refl) as [Hd0 Hpos]. cbn [hd tl] in Hd0, Hmid.
    assert (d0 = []) as -> by (destruct d0; [reflexivity | cbn [List.length] in Hd0; lia]).
    exists done, cur.
    cbn [concat app List.length nonfinal_types combine flat_map is_nil andb
         fragment_type] in Hptr, Hcalls.
    split; [exact Hptr|].
    split; [rewrite Hcalls, <- !app_assoc; reflexivity|].
    split; [exact Hmid | lia].
Qed.

(** ** A padding that is lost *)

(** X7: when the append of the padding fails and nothing else does,
    [AddRecord] returns OK but the sink is out of step with the writer:
    from a cursor that agreed with the sink, the cursor no longer agrees
    with it, the chunks of the record lying 1 to 6 bytes before the place
    in the stream the writer takes them to be at. *)
Theorem AddRecord_lost_padding_misaligns (slice : list byte)
    (w : Writer ScriptedFile) (msg : string) (sc : list Status) :
  kBlockSize - 6 <= block_offset_ w <= kBlockSize - 1 ->
  script (dest_ w) = IOError msg :: sc ->
  Forall (fun s => s = OK) sc ->
  aligned w ->
  exists w' : Writer ScriptedFile,
    AddRecord slice w = Returns (OK, w') /\
    ~ aligned w' /\
    (Z.of_nat (List.length (contents (dest_ w'))) + (kBlockSize - block_offset_ w))
      mod kBlockSize = block_offset_ w' mod kBlockSize.
Proof.
  intros Hbo Hsc Hall Hal.
  assert (Heq : AddRecord slice w = AddRecord slice (padded w)).
  { unfold log.AddRecord. apply AddRecord_loop_padded; [exact Hbo | lia]. }
  destruct (padded_scripted w) as (_ & Hscript & Hcont0).
  rewrite Hsc in Hscript, Hcont0. cbn [tl hd ok] in Hscript, Hcont0.
  assert (Hw0 : cursor_ok (padded w))
    by (unfold cursor_ok, padded; cbn [block_offset_]; bounds).
  destruct (AddRecord_layout slice (padded w) Hw0)
    as (w' & done & cur & Hrun & Hptr & _ & Hcont & Hmid & Hfirst & Hlast & Hcur & Hcursor).
  { rewrite Hscript. exact Hall. }
  cbv zeta in *.
  change (block_offset_ (padded w)) with 0 in *.
  change (padding_bytes 0) with (@nil byte) in Hcont.
  change (switch_offset 0) with 0 in *.
  rewrite Hcont0 in Hcont. cbn [app] in Hcont.
  exists w'. split; [rewrite Heq; exact Hrun|].
  assert (Hlen : Z.of_nat (List.length (contents (dest_ w'))) =
                 Z.of_nat (List.length (contents (dest_ w))) + block_offset_ w'
                 + kBlockSize * Z.of_nat (List.length done)).
  { rewrite Hcont, !length_app, !Nat2Z.inj_add.
    rewrite flat_map_chunk_bytes_length by apply chunk_types_length_done.
    rewrite concat_app, !length_app, !Nat2Z.inj_add. cbn [concat List.length].
    rewrite app_nil_r, Hcursor.
    destruct done as [|d0 done].
    - cbn [concat List.length is_nil]. bounds.
    - assert (Hne : d0 :: done <> []) by (intro E; discriminate E).
      destruct (Hfirst Hne) as [Hd0 _].
      rewrite (length_concat_done _ _ Hne Hd0 Hmid). cbn [is_nil]. bounds. }
  unfold aligned in *. rewrite Hlen.
  set (len := Z.of_nat (List.length (contents (dest_ w)))) in *.
  set (m := Z.of_nat (List.length done)) in *.
  set (bo := block_offset_ w) in *.
  set (bo' := block_offset_ w') in *.
  rewrite (Z.mod_small bo) in Hal by bounds.
  pose proof (Z.div_mod len kBlockSize ltac:(unfold kBlockSize; lia)) as Hdm.
  rewrite Hal in Hdm.
  split.
  - intros Hbad.
    pose proof (Z.div_mod bo' kBlockSize ltac:(unfold kBlockSize; lia)) as Hdm'.
    pose proof (Z.mod_pos_bound bo' kBlockSize ltac:(unfold kBlockSize; lia)) as Hr'.
    pose proof (Z.div_mod (len + bo' + kBlockSize * m) kBlockSize
                  ltac:(unfold kBlockSize; lia)) as Hdm2.
    rewrite Hbad in Hdm2.
    unfold kBlockSize in *. lia.
  - apply (mod_block_eq _ _ (len / kBlockSize + m + 1)). bounds.
Qed.

(** ** The writer constructed on a sink that holds a log *)


End Scripted.

(** ** The checksum table *)

Section Table.

Variable Value : list byte -> Z.
Variable Extend : Z -> list byte -> Z.
Variable kMaskRotate kMaskDelta : Z.
Context {F : Type} `{WritableFile F}.

(** X1: between any two calls the checksum table is the one [InitTypeCrc]
    built: for every record type it holds the checksum of the byte of its
    tag, whatever the sink and whatever was written; [AddRecord] returns
    with the table it was called with. *)
Theorem type_crc_between_calls (w : Writer F) :
  between_calls Value Extend kMaskRotate kMaskDelta w ->
  type_crc_ w = InitTypeCrc Value /\
  (forall t : RecordType,
      nth (Z.to_nat (tag t)) (type_crc_ w) 0 = Value [to_char (tag t)]) /\
  (forall slice : list byte,
      exists (s : Status) (w' : Writer F),
        AddRecord Extend kMaskRotate kMaskDelta slice w = Returns (s, w') /\
        type_crc_ w' = type_crc_ w).
Proof.
  intros Hw.
  assert (Htable : type_crc_ w = InitTypeCrc Value).
  { induction Hw as [dest | dest dest_length | w w' slice s Hw IH Hrun].
    - reflexivity.
    - reflexivity.
    - pose proof (between_calls_cursor_ok Value Extend kMaskRotate kMaskDelta w Hw)
        as Hcursor.
      destruct (AddRecord_returns Extend kMaskRotate kMaskDelta slice w Hcursor)
        as (s0 & w0 & Hrun0 & _ & Htc).
      rewrite Hrun0 in Hrun. injection Hrun as _ <-.
      rewrite Htc. exact IH. }
  split; [exact Htable|].
  split.
  - intros t. rewrite Htable. apply InitTypeCrc_nth.
  - intros slice.
    pose proof (between_calls_cursor_ok Value Extend kMaskRotate kMaskDelta w Hw)
      as Hcursor.
    destruct (AddRecord_returns Extend kMaskRotate kMaskDelta slice w Hcursor)
      as (s & w' & Hrun & _ & Htc).
    exists s, w'. split; [exact Hrun | exact Htc].
Qed.

End Table.

(** ** The theorems at concrete inputs *)

Local Abbreviation AddRecord :=
  (log.AddRecord crc32c.Extend example.kMaskRotate example.kMaskDelta).
Local Abbreviation EmitPhysicalRecord :=
  (log.EmitPhysicalRecord crc32c.Extend example.kMaskRotate example.kMaskDelta).

Lemma crc32c_Extend_range (c : Z) (d : list byte) :
  0 <= crc32c.Extend c d < 2 ^ 32.
Proof. apply to_uint32_range. Qed.

Lemma payload_length (n : Z) :
  0 <= n -> Z.of_nat (List.length (example.payload n)) = n.
Proof.
  intros Hn. unfold example.payload. rewrite repeat_length. lia.
Qed.

Lemma example_writer_cursor (bo : Z) (sc : list Status) :
  0 <= bo < kBlockSize -> block_offset_ (example.writer bo sc) = bo.
Proof.
  intros Hbo. unfold example.writer, Writer_at. cbn [block_offset_].
  rewrite (Z.mod_small bo (2 ^ 64)) by bounds.
  rewrite Z.mod_small by lia. apply to_int_small. bounds.
Qed.

(** Scenario A on a sink that does not fail. *)
Lemma AddRecord_scenario_A_witness :
  Z.of_nat (List.length (example.payload 70000)) = 70000 /\
  exists w' : Writer ScriptedFile,
    AddRecord (example.payload 70000) (Writer_new crc32c.Value (example.file [])) =
      Returns (OK, w') /\
    block_offset_ w' = 4485.
Proof.
  assert (H1 : Z.of_nat (List.length (example.payload 70000)) = 70000)
    by (apply payload_length; lia).
  split; [exact H1|].
  destruct (AddRecord_scenario_A crc32c.Value crc32c.Extend example.kMaskRotate
              example.kMaskDelta (example.file []) (example.payload 70000) H1)
    as (Hreturns & Hchunks & _).
  destruct (Hreturns (Forall_nil _)) as [w' Hrun].
  exists w'. split; [exact Hrun|].
  destruct (Hchunks w' Hrun) as (_ & _ & _ & _ & _ & Hbo).
  exact Hbo.
Defined.

(** The header of a Full chunk of 100 bytes, with the checksum and the
    masking of leveldb. *)
Lemma EmitPhysicalRecord_header_round_trip_witness :
  0 <= example.kMaskRotate <= 32 /\
  Z.of_nat (List.length (example.payload 100)) <= 65535 /\
  header.length_of
    (log.FormatHeader crc32c.Extend example.kMaskRotate example.kMaskDelta
       (InitTypeCrc crc32c.Value) kFullType (example.payload 100)
       (Z.of_nat (List.length (example.payload 100)))) =
    Z.of_nat (List.length (example.payload 100)) /\
  header.crc_of example.kMaskRotate example.kMaskDelta
    (log.FormatHeader crc32c.Extend example.kMaskRotate example.kMaskDelta
       (InitTypeCrc crc32c.Value) kFullType (example.payload 100)
       (Z.of_nat (List.length (example.payload 100)))) =
    crc32c.Extend (nth (Z.to_nat (tag kFullType)) (InitTypeCrc crc32c.Value) 0)
      (example.payload 100).
Proof.
  assert (H1 : 0 <= example.kMaskRotate <= 32) by (unfold example.kMaskRotate; lia).
  assert (H2 : Z.of_nat (List.length (example.payload 100)) <= 65535)
    by (rewrite payload_length; lia).
  split; [exact H1|]. split; [exact H2|].
  destruct (EmitPhysicalRecord_header_round_trip crc32c.Extend example.kMaskRotate
              example.kMaskDelta kFullType (example.payload 100)
              (InitTypeCrc crc32c.Value) H1 crc32c_Extend_range H2)
    as (_ & Hlen & _ & Hcrc & _).
  split; [exact Hlen | exact Hcrc].
Defined.

(** A record of 100 bytes written 68 bytes before the end of a block. *)
Lemma AddRecord_chunk_types_witness :
  0 <= block_offset_ (example.writer 32700 []) <= kBlockSize /\
  exists (w' : Writer ScriptedFile) (payloads : list (list byte)),
    AddRecord (example.payload 100) (example.writer 32700 []) = Returns (OK, w') /\
    concat payloads = example.payload 100 /\
    calls (dest_ w') =
      flat_map (chunk.calls crc32c.Extend example.kMaskRotate example.kMaskDelta
                  (type_crc_ (example.writer 32700 [])))
        (combine (chunk_types (List.length payloads)) payloads).
Proof.
  assert (H1 : 0 <= block_offset_ (example.writer 32700 []) <= kBlockSize)
    by (rewrite example_writer_cursor; bounds).
  split; [exact H1|].
  destruct (AddRecord_chunk_types crc32c.Extend example.kMaskRotate example.kMaskDelta
              (example.payload 100) (example.writer 32700 []) H1)
    as [Hreturns Htypes].
  destruct (Hreturns (Forall_nil _)) as [w' Hrun].
  destruct (Htypes w' Hrun) as (payloads & _ & Hcat & Hcalls & _).
  exists w', payloads. split; [exact Hrun|]. split; [exact Hcat|].
  rewrite Hcalls, example_writer_cursor by bounds. reflexivity.
Defined.

(** C3, as it is stated, fails: with 61 bytes of payload room left in the
    block, a record of 100 bytes is emitted as a First and a Last chunk,
    and the tag in the header of the second is the MaxType bound. *)
Lemma AddRecord_chunk_types_counterexample :
  AddRecord (example.payload 100) (example.writer 32700 []) =
    Returns (OK, example.writer_of
                   (AddRecord (example.payload 100) (example.writer 32700 []))) /\
  match calls (dest_ (example.writer_of
                        (AddRecord (example.payload 100) (example.writer 32700 []))))
  with
  | [CallAppend h1; CallAppend p1; CallFlush; CallAppend h2; CallAppend p2; CallFlush] =>
      header.type_of h1 = tag kFirstType /\
      header.type_of h2 = tag kMaxRecordType /\
      p1 ++ p2 = example.payload 100
  | _ => False
  end.
Proof.
  vm_compute. repeat split; reflexivity.
Qed.

(** A record of 100 bytes on a fresh writer. *)
Lemma AddRecord_block_offset_bound_witness :
  between_calls crc32c.Value crc32c.Extend example.kMaskRotate example.kMaskDelta
    example.fresh_writer /\
  exists (s : Status) (w' : Writer ScriptedFile),
    AddRecord (example.payload 100) example.fresh_writer = Returns (s, w') /\
    0 <= block_offset_ w' <= kBlockSize.
Proof.
  assert (H1 : between_calls crc32c.Value crc32c.Extend example.kMaskRotate
                 example.kMaskDelta example.fresh_writer)
    by apply after_new.
  split; [exact H1|].
  exact (proj2 (AddRecord_block_offset_bound crc32c.Value crc32c.Extend
                  example.kMaskRotate example.kMaskDelta example.fresh_writer H1)
           (example.payload 100)).
Defined.

(** C4, as it is stated, fails: a chunk that fills its block to the last
    byte leaves block_offset at BlockSize, not below it.  With 68 bytes
    left in the block a record of 61 bytes is one Full chunk of 7 + 61
    bytes. *)
Lemma AddRecord_block_offset_bound_counterexample :
  block_offset_ (example.writer 32700 []) = 32700 /\
  AddRecord (example.payload 61) (example.writer 32700 []) =
    Returns (OK, example.writer_of
                   (AddRecord (example.payload 61) (example.writer 32700 []))) /\
  between_calls crc32c.Value crc32c.Extend example.kMaskRotate example.kMaskDelta
    (example.writer_of
       (AddRecord (example.payload 61) (example.writer 32700 []))) /\
  block_offset_
    (example.writer_of
       (AddRecord (example.payload 61) (example.writer 32700 []))) = kBlockSize /\
  ~ (0 <= block_offset_
            (example.writer_of
               (AddRecord (example.payload 61) (example.writer 32700 [])))
       < kBlockSize).
Proof.
  assert (Hrun : AddRecord (example.payload 61) (example.writer 32700 []) =
                 Returns (OK, example.writer_of
                                (AddRecord (example.payload 61)
                                   (example.writer 32700 []))))
    by (vm_compute; reflexivity).
  split; [vm_compute; reflexivity|].
  split; [exact Hrun|].
  split.
  { eapply after_AddRecord; [|exact Hrun]. apply after_at. }
  split; [vm_compute; reflexivity|].
  vm_compute. intros [_ H]. discriminate H.
Qed.

(** Three bytes left in the block: three zero bytes of padding. *)
Lemma AddRecord_pads_block_trailer_witness :
  kBlockSize - 6 <= block_offset_ (example.writer 32765 []) <= kBlockSize - 1 /\
  calls (dest_ (padded (example.writer 32765 []))) =
    [CallAppend [Byte.x00; Byte.x00; Byte.x00]] /\
  AddRecord (example.payload 10) (example.writer 32765 []) =
    AddRecord (example.payload 10) (padded (example.writer 32765 [])).
Proof.
  assert (H1 : kBlockSize - 6 <= block_offset_ (example.writer 32765 [])
               <= kBlockSize - 1)
    by (rewrite example_writer_cursor; bounds).
  split; [exact H1|].
  destruct (AddRecord_pads_block_trailer crc32c.Extend example.kMaskRotate
              example.kMaskDelta (example.payload 10) true
              (example.writer 32765 []) H1)
    as (_ & Hcalls & _ & _ & Hrun & _).
  split; [|exact Hrun].
  rewrite Hcalls, example_writer_cursor by bounds. reflexivity.
Defined.

(** The empty record on a fresh writer. *)
Lemma AddRecord_empty_payload_witness :
  0 <= block_offset_ example.fresh_writer <= kBlockSize /\
  exists w' : Writer ScriptedFile,
    AddRecord [] example.fresh_writer = Returns (OK, w') /\
    calls (dest_ w') =
      [CallAppend (chunk.header crc32c.Extend example.kMaskRotate example.kMaskDelta
                     (type_crc_ example.fresh_writer) (kFullType, []));
       CallAppend []; CallFlush] /\
    block_offset_ w' = 7.
Proof.
  assert (H1 : 0 <= block_offset_ example.fresh_writer <= kBlockSize)
    by (cbn; bounds).
  split; [exact H1|].
  destruct (AddRecord_empty_payload crc32c.Extend example.kMaskRotate
              example.kMaskDelta example.fresh_writer H1)
    as (s & w' & k & Hrun & _ & Hcalls & Hk & _ & _ & Hbo).
  destruct (AddRecord_script_OK crc32c.Extend example.kMaskRotate example.kMaskDelta
              [] example.fresh_writer H1) as [w2 H2]; [constructor|].
  assert (Hs : s = OK) by congruence.
  rewrite Hs in Hrun. rewrite (Hk Hs) in Hcalls.
  exists w'. split; [exact Hrun|]. split; [exact Hcalls | exact Hbo].
Defined.

(** The fifth sink call fails: the append of the payload of the second
    chunk. *)
Lemma AddRecord_stops_at_first_error_witness :
  0 <= block_offset_ (example.failing_writer 32700 4) <= kBlockSize /\
  AddRecord (example.payload 100) (example.failing_writer 32700 4) =
    Returns (IOError "disk full",
             example.writer_of
               (AddRecord (example.payload 100) (example.failing_writer 32700 4))) /\
  exists (done : list (list byte)) (cur rest : list byte) (k : nat),
    example.payload 100 = concat done ++ cur ++ rest /\
    nth (List.length (padding_calls (block_offset_ (example.failing_writer 32700 4)))
         + 3 * List.length done + k - 1)
        (script (dest_ (example.failing_writer 32700 4))) OK = IOError "disk full".
Proof.
  assert (H1 : 0 <= block_offset_ (example.failing_writer 32700 4) <= kBlockSize)
    by (unfold example.failing_writer; rewrite example_writer_cursor; bounds).
  assert (H2 : AddRecord (example.payload 100) (example.failing_writer 32700 4) =
               Returns (IOError "disk full",
                        example.writer_of
                          (AddRecord (example.payload 100)
                             (example.failing_writer 32700 4))))
    by (vm_compute; reflexivity).
  split; [exact H1|]. split; [exact H2|].
  destruct (AddRecord_stops_at_first_error crc32c.Extend example.kMaskRotate
              example.kMaskDelta (example.payload 100)
              (example.failing_writer 32700 4) _ "disk full" H1 H2)
    as [(done & cur & rest & k & Hcat & _ & _ & _ & _ & Hnth & _) _].
  exists done, cur, rest, k. split; [exact Hcat | exact Hnth].
Defined.

(** A record of 100 bytes on a fresh writer. *)
Lemma AddRecord_assertions_hold_witness :
  0 <= block_offset_ example.fresh_writer <= kBlockSize /\
  exists (s : Status) (w' : Writer ScriptedFile),
    AddRecord (example.payload 100) example.fresh_writer = Returns (s, w') /\
    cursor_ok w'.
Proof.
  assert (H1 : 0 <= block_offset_ example.fresh_writer <= kBlockSize)
    by (cbn; bounds).
  split; [exact H1|].
  exact (proj1 (AddRecord_assertions_hold crc32c.Extend example.kMaskRotate
                  example.kMaskDelta (example.payload 100) example.fresh_writer H1)).
Defined.

(** The append of the padding fails and nothing else: the sink holds the
    7 + 10 bytes of the chunk and no padding. *)
Lemma AddRecord_discards_padding_error_witness :
  kBlockSize - 6 <= block_offset_ (example.failing_writer 32765 0) <= kBlockSize - 1 /\
  script (dest_ (example.failing_writer 32765 0)) = [IOError "disk full"] /\
  exists w' : Writer ScriptedFile,
    AddRecord (example.payload 10) (example.failing_writer 32765 0) =
      Returns (OK, w') /\
    List.length (contents (dest_ w')) = 17%nat.
Proof.
  assert (H1 : kBlockSize - 6 <= block_offset_ (example.failing_writer 32765 0)
               <= kBlockSize - 1)
    by (unfold example.failing_writer; rewrite example_writer_cursor; bounds).
  assert (H2 : script (dest_ (example.failing_writer 32765 0)) = [IOError "disk full"])
    by reflexivity.
  split; [exact H1|]. split; [exact H2|].
  destruct (AddRecord_discards_padding_error crc32c.Extend example.kMaskRotate
              example.kMaskDelta (example.payload 10)
              (example.failing_writer 32765 0) "disk full" [] H1 H2)
    as [Heq Hok].
  destruct (Hok (Forall_nil _)) as (w' & payloads & Hrun & _).
  exists w'. split; [exact Hrun|].
  assert (Hw' : w' = example.writer_of
                       (AddRecord (example.payload 10) (example.failing_writer 32765 0)))
    by (rewrite Hrun; reflexivity).
  rewrite Hw'. vm_compute. reflexivity.
Defined.

(** The append of the payload fails: two calls, the header in the sink,
    the cursor behind the chunk. *)
Lemma EmitPhysicalRecord_sink_operations_witness :
  0 <= 10 <= 0xffff /\
  0 <= block_offset_ (example.failing_writer 0 1) /\
  block_offset_ (example.failing_writer 0 1) + kHeaderSize + 10 <= kBlockSize /\
  exists w' : Writer ScriptedFile,
    EmitPhysicalRecord kFullType (example.payload 10) 10 (example.failing_writer 0 1) =
      Returns (IOError "disk full", w') /\
    block_offset_ w' = 17 /\
    List.length (calls (dest_ w')) = 2%nat /\
    List.length (contents (dest_ w')) = 7%nat.
Proof.
  assert (H1 : 0 <= 10 <= 0xffff) by lia.
  assert (H2 : 0 <= block_offset_ (example.failing_writer 0 1))
    by (vm_compute; discriminate).
  assert (H3 : block_offset_ (example.failing_writer 0 1) + kHeaderSize + 10
               <= kBlockSize)
    by (vm_compute; discriminate).
  split; [exact H1|]. split; [exact H2|]. split; [exact H3|].
  destruct (EmitPhysicalRecord_sink_operations crc32c.Extend example.kMaskRotate
              example.kMaskDelta kFullType (example.payload 10) 10
              (example.failing_writer 0 1) H1 H2 H3)
    as (s & w' & Hrun & Hbo & Hcase).
  cbn [example.failing_writer example.writer example.file Writer_at dest_ script
       nth repeat app] in Hcase.
  destruct Hcase as (Hs & Hcalls & Hcont & _).
  exists w'. rewrite Hs in Hrun. split; [exact Hrun|].
  split; [rewrite Hbo; reflexivity|].
  split; [rewrite Hcalls; reflexivity | rewrite Hcont; reflexivity].
Defined.

(** ** The further theorems at concrete inputs *)

Lemma example_resumed_cursor (n : Z) (sc : list Status) :
  0 <= n < kBlockSize ->
  block_offset_ (example.resumed n sc) = n /\ aligned (example.resumed n sc).
Proof.
  intros Hn. unfold aligned, example.resumed, Writer_at.
  cbn [block_offset_ dest_ contents].
  rewrite payload_length by lia.
  rewrite (Z.mod_small n (2 ^ 64)) by bounds.
  rewrite (Z.mod_small n kBlockSize) by lia.
  rewrite to_int_small by bounds.
  rewrite (Z.mod_small n kBlockSize) by lia.
  split; reflexivity.
Qed.

(** The table of a fresh writer. *)
Lemma type_crc_between_calls_witness :
  between_calls crc32c.Value crc32c.Extend example.kMaskRotate example.kMaskDelta
    example.fresh_writer /\
  nth (Z.to_nat (tag kLastType)) (type_crc_ example.fresh_writer) 0 =
    crc32c.Value [to_char (tag kLastType)].
Proof.
  assert (H1 : between_calls crc32c.Value crc32c.Extend example.kMaskRotate
                 example.kMaskDelta example.fresh_writer)
    by apply after_new.
  split; [exact H1|].
  destruct (type_crc_between_calls crc32c.Value crc32c.Extend example.kMaskRotate
              example.kMaskDelta example.fresh_writer H1) as (_ & Hnth & _).
  apply Hnth.
Defined.


(** A record of 100 bytes written 68 bytes before the end of a block: 61
    bytes in the first chunk. *)
Lemma AddRecord_chunk_sizes_witness :
  0 <= block_offset_ (example.writer 32700 []) <= kBlockSize /\
  exists (w' : Writer ScriptedFile) (done : list (list byte)) (cur : list byte),
    AddRecord (example.payload 100) (example.writer 32700 []) = Returns (OK, w') /\
    example.payload 100 = concat done ++ cur /\
    (done <> [] -> Z.of_nat (List.length (hd [] done)) = 61).
Proof.
  assert (H1 : 0 <= block_offset_ (example.writer 32700 []) <= kBlockSize)
    by (rewrite example_writer_cursor; bounds).
  split; [exact H1|].
  destruct (AddRecord_script_OK crc32c.Extend example.kMaskRotate example.kMaskDelta
              (example.payload 100) (example.writer 32700 []) H1)
    as [w' H2]; [constructor|].
  destruct (AddRecord_chunk_sizes crc32c.Extend example.kMaskRotate example.kMaskDelta
              (example.payload 100) (example.writer 32700 []) w' H1 H2)
    as (done & cur & Hcat & _ & _ & Hfirst & _).
  exists w', done, cur. split; [exact H2|]. split; [exact Hcat|].
  intros Hne. destruct (Hfirst Hne) as [Hd0 _].
  rewrite Hd0, example_writer_cursor by bounds. reflexivity.
Defined.

(** The same record: two chunks, six sink calls, 114 bytes, the cursor
    at 46. *)
Lemma AddRecord_stream_growth_witness :
  0 <= block_offset_ (example.writer 32700 []) <= kBlockSize /\
  Forall (fun s => s = OK) (script (dest_ (example.writer 32700 []))) /\
  exists w' : Writer ScriptedFile,
    AddRecord (example.payload 100) (example.writer 32700 []) = Returns (OK, w') /\
    Z.of_nat (List.length (calls (dest_ w'))) = 6 /\
    Z.of_nat (List.length (contents (dest_ w'))) = 114 /\
    block_offset_ w' = 46.
Proof.
  assert (H1 : 0 <= block_offset_ (example.writer 32700 []) <= kBlockSize)
    by (rewrite example_writer_cursor; bounds).
  assert (H2 : Forall (fun s => s = OK) (script (dest_ (example.writer 32700 []))))
    by constructor.
  split; [exact H1|]. split; [exact H2|].
  destruct (AddRecord_stream_growth crc32c.Extend example.kMaskRotate
              example.kMaskDelta (example.payload 100) (example.writer 32700 [])
              H1 H2)
    as (w' & Hrun & Hcalls & Hcont & Hbo).
  exists w'. split; [exact Hrun|].
  rewrite payload_length, example_writer_cursor in Hcalls, Hcont, Hbo by bounds.
  split; [exact Hcalls|]. split; [exact Hcont | exact Hbo].
Defined.

(** A record of 40000 bytes on a writer constructed on a sink of 100
    bytes. *)
Lemma AddRecord_chunks_within_blocks_witness :
  0 <= block_offset_ (example.resumed 100 []) <= kBlockSize /\
  aligned (example.resumed 100 []) /\
  exists (w' : Writer ScriptedFile) (payloads : list (list byte)),
    AddRecord (example.payload 40000) (example.resumed 100 []) = Returns (OK, w') /\
    concat payloads = example.payload 40000 /\
    within_blocks 100 payloads /\
    aligned w'.
Proof.
  destruct (example_resumed_cursor 100 []) as [Hbo Hal]; [bounds|].
  assert (H1 : 0 <= block_offset_ (example.resumed 100 []) <= kBlockSize)
    by (rewrite Hbo; bounds).
  split; [exact H1|]. split; [exact Hal|].
  destruct (AddRecord_chunks_within_blocks crc32c.Extend example.kMaskRotate
              example.kMaskDelta (example.payload 40000) (example.resumed 100 [])
              H1 (Forall_nil _) Hal)
    as (w' & payloads & Hrun & Hcat & _ & _ & Hwithin & Hal').
  exists w', payloads. split; [exact Hrun|]. split; [exact Hcat|].
  split; [|exact Hal'].
  rewrite Hbo in Hwithin. cbn [example.resumed Writer_at dest_ contents] in Hwithin.
  rewrite payload_length in Hwithin by lia. exact Hwithin.
Defined.

(** Seven bytes left in the block and a record of 10 bytes. *)
Lemma AddRecord_zero_length_First_witness :
  block_offset_ (example.writer 32761 []) = kBlockSize - kHeaderSize /\
  example.payload 10 <> [] /\
  exists (w' : Writer ScriptedFile) (done : list (list byte)) (cur : list byte),
    AddRecord (example.payload 10) (example.writer 32761 []) = Returns (OK, w') /\
    example.payload 10 = concat done ++ cur /\
    0 < Z.of_nat (List.length cur).
Proof.
  assert (H1 : block_offset_ (example.writer 32761 []) = kBlockSize - kHeaderSize)
    by (rewrite example_writer_cursor; bounds).
  assert (H2 : example.payload 10 <> []) by (vm_compute; discriminate).
  split; [exact H1|]. split; [exact H2|].
  destruct (AddRecord_script_OK crc32c.Extend example.kMaskRotate example.kMaskDelta
              (example.payload 10) (example.writer 32761 []))
    as [w' H3]; [unfold cursor_ok; rewrite H1; bounds | constructor |].
  destruct (AddRecord_zero_length_First crc32c.Extend example.kMaskRotate
              example.kMaskDelta (example.payload 10) (example.writer 32761 []) w'
              H1 H2 H3)
    as (done & cur & Hcat & _ & _ & Hcur).
  exists w', done, cur. split; [exact H3|]. split; [exact Hcat | apply Hcur].
Defined.

(** Three bytes left in a block of a sink of 32765 bytes, and the append
    of the padding fails. *)
Lemma AddRecord_lost_padding_misaligns_witness :
  kBlockSize - 6 <= block_offset_ (example.resumed 32765 [IOError "disk full"])
    <= kBlockSize - 1 /\
  script (dest_ (example.resumed 32765 [IOError "disk full"])) =
    [IOError "disk full"] /\
  aligned (example.resumed 32765 [IOError "disk full"]) /\
  exists w' : Writer ScriptedFile,
    AddRecord (example.payload 10) (example.resumed 32765 [IOError "disk full"]) =
      Returns (OK, w') /\
    ~ aligned w'.
Proof.
  destruct (example_resumed_cursor 32765 [IOError "disk full"]) as [Hbo Hal];
    [bounds|].
  assert (H1 : kBlockSize - 6
               <= block_offset_ (example.resumed 32765 [IOError "disk full"])
               <= kBlockSize - 1)
    by (rewrite Hbo; bounds).
  assert (H2 : script (dest_ (example.resumed 32765 [IOError "disk full"])) =
               [IOError "disk full"])
    by reflexivity.
  split; [exact H1|]. split; [exact H2|]. split; [exact Hal|].
  destruct (AddRecord_lost_padding_misaligns crc32c.Extend example.kMaskRotate
              example.kMaskDelta (example.payload 10)
              (example.resumed 32765 [IOError "disk full"]) "disk full" []
              H1 H2 (Forall_nil _) Hal)
    as (w' & Hrun & Hnot & _).
  exists w'. split; [exact Hrun | exact Hnot].
Defined.
